(** * Retry controller and SSE decoder of the OpenAI client adapters

    Shallow embedding of [src/openai/openai-core.js] (class
    [OpenAIApiService]) and [src/openai/openai-responses-core.js] (class
    [OpenAIResponsesApiService]).

    Conventions of the embedding:
    - a JavaScript string is the list of its UTF-16 code units ([Z]);
    - a [Buffer] chunk is a [list byte];
    - numbers that reach the retry logic are integers ([Z]); the values
      [undefined] and [NaN] are kept apart in [JS.number];
    - the HTTP transport (axios) is a state machine handed in as a
      parameter; [JSON.parse] is a parameter of the decoder and has an
      executable instance in module [JSON];
    - an async generator is the list of the values it yields, in order,
      together with how it completes; console output is not modelled. *)

From Stdlib.Strings Require Import String Ascii Byte.
From Stdlib Require Import ZArith List Bool Lia.
From Equations Require Import Equations.
Import ListNotations.
Open Scope Z_scope.

(** ** JavaScript strings and the few primitives the source uses *)

Module JS.

Definition jsstring := list Z.

(** A string literal of the source, as code units (ASCII only). *)
Definition lit (s : string) : jsstring :=
  map (fun b => Z.of_N (Byte.to_N b)) (list_byte_of_string s).
Arguments lit s%_string.

(** WhiteSpace and LineTerminator code units, as [String.prototype.trim]
    strips them. *)
Definition isWhiteSpace (c : Z) : bool :=
  ((9 <=? c) && (c <=? 13)) || (c =? 32) || (c =? 160) || (c =? 5760)
  || ((8192 <=? c) && (c <=? 8202)) || (c =? 8232) || (c =? 8233)
  || (c =? 8239) || (c =? 8287) || (c =? 12288) || (c =? 65279).

Fixpoint trimStart (s : jsstring) : jsstring :=
  match s with
  | c :: r => if isWhiteSpace c then trimStart r else s
  | [] => []
  end.

Definition trimEnd (s : jsstring) : jsstring := rev (trimStart (rev s)).

Definition trim (s : jsstring) : jsstring := trimEnd (trimStart s).

(** [s.indexOf(c)] for a one-unit needle; [None] stands for [-1]. *)
Fixpoint indexOf (c : Z) (s : jsstring) : option nat :=
  match s with
  | [] => None
  | x :: r => if x =? c then Some O else option_map S (indexOf c r)
  end.

(** [s.substring(a, b)]: both ends are clamped to the length and swapped
    when [a > b]. *)
Definition substring (a b : nat) (s : jsstring) : jsstring :=
  let a' := Nat.min a (length s) in
  let b' := Nat.min b (length s) in
  firstn (Nat.max a' b' - Nat.min a' b') (skipn (Nat.min a' b') s).

(** [s.substring(a)]. *)
Definition substringFrom (a : nat) (s : jsstring) : jsstring := skipn a s.

Fixpoint startsWith (p s : jsstring) : bool :=
  match p, s with
  | [], _ => true
  | x :: p', y :: s' => (x =? y) && startsWith p' s'
  | _ :: _, [] => false
  end.

(** [a === b] on strings. *)
Fixpoint eqb (a b : jsstring) : bool :=
  match a, b with
  | [], [] => true
  | x :: a', y :: b' => (x =? y) && eqb a' b'
  | _, _ => false
  end.

(** The values a retry setting can take: unset, a number, or [NaN]. *)
Inductive number := undefined | num (z : Z) | NaN.

(** [a || d] with a numeric default: [undefined], [0] and [NaN] are falsy. *)
Definition or_default (a : number) (d : Z) : number :=
  match a with
  | num 0 | undefined | NaN => num d
  | num z => num z
  end.

(** [n < m] for an integer [n]; a comparison with [undefined] or [NaN] is
    false. *)
Definition lessThan (n : Z) (m : number) : bool :=
  match m with
  | num z => n <? z
  | _ => false
  end.

(** [a * k] for an integer [k]; [undefined * k] is [NaN]. *)
Definition mul (a : number) (k : Z) : number :=
  match a with
  | num z => num (z * k)
  | _ => NaN
  end.

End JS.

Import JS.

(** The newline code unit searched by [buffer.indexOf('\n')]. *)
Definition NL : Z := 10.

(** ** [StringDecoder('utf8')] of Node's [string_decoder]

    The class is not part of the repository; it is modelled from Node's
    documentation as the byte-at-a-time UTF-8 automaton: [write] returns
    the code units of the characters the chunk completes and keeps an
    unfinished trailing sequence in its state, [end_] turns an unfinished
    sequence into U+FFFD.  On well-formed UTF-8 this is the text Node
    returns; on ill-formed input the model emits one U+FFFD per maximal
    ill-formed subpart, as the WHATWG decoder does. *)

Module StringDecoder.

Record t := mk {
  codePoint : Z;
  bytesNeeded : nat;
  bytesSeen : nat;
  lower : Z;
  upper : Z
}.

Definition init : t := mk 0 0 0 128 191.

Definition utf16 (cp : Z) : jsstring :=
  if cp <? 65536 then [cp]
  else [55296 + Z.shiftr (cp - 65536) 10; 56320 + Z.land (cp - 65536) 1023].

(** A byte met while no sequence is open. *)
Definition lead (b : Z) : jsstring * t :=
  if b <=? 127 then ([b], init)
  else if (194 <=? b) && (b <=? 223) then ([], mk (Z.land b 31) 1 0 128 191)
  else if (224 <=? b) && (b <=? 239) then
    ([], mk (Z.land b 15) 2 0 (if b =? 224 then 160 else 128)
                              (if b =? 237 then 159 else 191))
  else if (240 <=? b) && (b <=? 244) then
    ([], mk (Z.land b 7) 3 0 (if b =? 240 then 144 else 128)
                             (if b =? 244 then 143 else 191))
  else ([65533], init).

Definition step (d : t) (b : Z) : jsstring * t :=
  match bytesNeeded d with
  | O => lead b
  | S _ =>
    if (lower d <=? b) && (b <=? upper d) then
      let cp := Z.lor (Z.shiftl (codePoint d) 6) (Z.land b 63) in
      if Nat.eqb (S (bytesSeen d)) (bytesNeeded d) then (utf16 cp, init)
      else ([], mk cp (bytesNeeded d) (S (bytesSeen d)) 128 191)
    else
      let '(out, d') := lead b in (65533 :: out, d')
  end.

Fixpoint write (d : t) (chunk : list byte) : jsstring * t :=
  match chunk with
  | [] => ([], d)
  | b :: rest =>
    let '(o1, d1) := step d (Z.of_N (Byte.to_N b)) in
    let '(o2, d2) := write d1 rest in
    (o1 ++ o2, d2)
  end.

Definition end_ (d : t) : jsstring :=
  match bytesNeeded d with
  | O => []
  | S _ => [65533]
  end.

End StringDecoder.

(** ** JSON values and [JSON.parse]

    A parsed value is kept as its syntax tree: a number as the decimal
    [mantissa * 10 ^ exponent] its text denotes (trailing zeros removed),
    an object as its members in textual order. *)

Module JSON.

#[warnings="-register-all"]
Inductive value :=
| Null
| Bool (b : bool)
| Number (mantissa exponent : Z)
| String (s : jsstring)
| Array (elements : list value)
| Object (members : list (jsstring * value)).

Definition isWs (c : Z) : bool :=
  (c =? 32) || (c =? 9) || (c =? 10) || (c =? 13).

Fixpoint skipWs (s : jsstring) : jsstring :=
  match s with
  | c :: r => if isWs c then skipWs r else s
  | [] => []
  end.

Definition isDigit (c : Z) : bool := (48 <=? c) && (c <=? 57).

(** Reads a run of digits: the number read onto [acc], how many digits,
    and the rest of the text. *)
Fixpoint digits (acc : Z) (n : nat) (s : jsstring) : Z * nat * jsstring :=
  match s with
  | c :: r => if isDigit c then digits (acc * 10 + (c - 48)) (S n) r
              else (acc, n, s)
  | [] => (acc, n, [])
  end.

Fixpoint normalise (fuel : nat) (m e : Z) : Z * Z :=
  match fuel with
  | O => (m, e)
  | S f => if m =? 0 then (0, 0)
           else if m mod 10 =? 0 then normalise f (m / 10) (e + 1)
           else (m, e)
  end.

Definition parse_number (s : jsstring) : option (value * jsstring) :=
  let '(neg, s1) := match s with
                    | c :: r => if c =? 45 then (true, r) else (false, s)
                    | [] => (false, s)
                    end in
  let int_part :=
    match s1 with
    | c :: r => if c =? 48 then Some (0, 1%nat, r)
                else if isDigit c then Some (digits 0 0 s1)
                else None
    | [] => None
    end in
  match int_part with
  | None => None
  | Some (i, ni, s2) =>
    let frac_part :=
      match s2 with
      | c :: r => if c =? 46 then
                    let '(m, k, r') := digits i 0 r in
                    match k with O => None | S _ => Some (m, k, r') end
                  else Some (i, O, s2)
      | [] => Some (i, O, s2)
      end in
    match frac_part with
    | None => None
    | Some (m, k, s3) =>
      let exp_part :=
        match s3 with
        | c :: r =>
          if (c =? 101) || (c =? 69) then
            let '(sgn, r1) := match r with
                              | c' :: r' => if c' =? 45 then (-1, r')
                                            else if c' =? 43 then (1, r')
                                            else (1, r)
                              | [] => (1, r)
                              end in
            let '(x, nx, r2) := digits 0 0 r1 in
            match nx with O => None | S _ => Some (sgn * x, r2) end
          else Some (0, s3)
        | [] => Some (0, s3)
        end in
      match exp_part with
      | None => None
      | Some (x, s4) =>
        let '(m', e') := normalise (ni + k) (if neg then - m else m)
                                   (x - Z.of_nat k) in
        Some (Number m' e', s4)
      end
    end
  end.

Definition hexDigit (c : Z) : option Z :=
  if isDigit c then Some (c - 48)
  else if (97 <=? c) && (c <=? 102) then Some (c - 87)
  else if (65 <=? c) && (c <=? 70) then Some (c - 55)
  else None.

Definition hex4 (a b c d : Z) : option Z :=
  match hexDigit a, hexDigit b, hexDigit c, hexDigit d with
  | Some x, Some y, Some z, Some w => Some (((x * 16 + y) * 16 + z) * 16 + w)
  | _, _, _, _ => None
  end.

Definition escape (c : Z) : option Z :=
  if (c =? 34) || (c =? 92) || (c =? 47) then Some c
  else if c =? 98 then Some 8
  else if c =? 102 then Some 12
  else if c =? 110 then Some 10
  else if c =? 114 then Some 13
  else if c =? 116 then Some 9
  else None.

(** The characters of a string literal after its opening quote. *)
Fixpoint parse_chars (acc : jsstring) (s : jsstring) : option (jsstring * jsstring) :=
  match s with
  | [] => None
  | c :: r =>
    if c =? 34 then Some (rev acc, r)
    else if c =? 92 then
      match r with
      | [] => None
      | e :: r1 =>
        if e =? 117 then
          match r1 with
          | h1 :: h2 :: h3 :: h4 :: r2 =>
            match hex4 h1 h2 h3 h4 with
            | Some u => parse_chars (u :: acc) r2
            | None => None
            end
          | _ => None
          end
        else match escape e with
             | Some u => parse_chars (u :: acc) r1
             | None => None
             end
      end
    else if c <? 32 then None
    else parse_chars (c :: acc) r
  end.

(** What a fuelled parsing function returns: the value read and the text
    left, a syntax error, or [Exhausted] when the fuel did not suffice
    (which the fuel [parse] gives rules out, see [parse_never_exhausted]). *)
Inductive result (A : Type) :=
| Ok (a : A) (rest : jsstring)
| Malformed
| Exhausted.
Arguments Ok {A} a rest.
Arguments Malformed {A}.
Arguments Exhausted {A}.

Fixpoint parse_value (fuel : nat) (s : jsstring) {struct fuel}
  : result value :=
  match fuel with
  | O => Exhausted
  | S f =>
    let s := skipWs s in
    if startsWith (lit "null") s then Ok Null (skipn 4 s)
    else if startsWith (lit "true") s then Ok (Bool true) (skipn 4 s)
    else if startsWith (lit "false") s then Ok (Bool false) (skipn 5 s)
    else match s with
         | [] => Malformed
         | c :: r =>
           if c =? 34 then
             match parse_chars [] r with
             | Some (str, r') => Ok (String str) r'
             | None => Malformed
             end
           else if c =? 91 then
             match skipWs r with
             | [] => Malformed
             | c' :: r' =>
               if c' =? 93 then Ok (Array []) r'
               else match parse_elements f r with
                    | Ok l r'' => Ok (Array l) r''
                    | Malformed => Malformed
                    | Exhausted => Exhausted
                    end
             end
           else if c =? 123 then
             match skipWs r with
             | [] => Malformed
             | c' :: r' =>
               if c' =? 125 then Ok (Object []) r'
               else match parse_members f r with
                    | Ok l r'' => Ok (Object l) r''
                    | Malformed => Malformed
                    | Exhausted => Exhausted
                    end
             end
           else match parse_number s with
                | Some (v, r') => Ok v r'
                | None => Malformed
                end
         end
  end
with parse_elements (fuel : nat) (s : jsstring) {struct fuel}
  : result (list value) :=
  match fuel with
  | O => Exhausted
  | S f =>
    match parse_value f s with
    | Malformed => Malformed
    | Exhausted => Exhausted
    | Ok v r =>
      match skipWs r with
      | [] => Malformed
      | c :: r' =>
        if c =? 44 then
          match parse_elements f r' with
          | Ok l r'' => Ok (v :: l) r''
          | Malformed => Malformed
          | Exhausted => Exhausted
          end
        else if c =? 93 then Ok [v] r'
        else Malformed
      end
    end
  end
with parse_members (fuel : nat) (s : jsstring) {struct fuel}
  : result (list (jsstring * value)) :=
  match fuel with
  | O => Exhausted
  | S f =>
    match skipWs s with
    | [] => Malformed
    | q :: r0 =>
      if q =? 34 then
        match parse_chars [] r0 with
        | None => Malformed
        | Some (k, r1) =>
          match skipWs r1 with
          | [] => Malformed
          | colon :: r2 =>
            if colon =? 58 then
              match parse_value f r2 with
              | Malformed => Malformed
              | Exhausted => Exhausted
              | Ok v r3 =>
                match skipWs r3 with
                | [] => Malformed
                | c :: r4 =>
                  if c =? 44 then
                    match parse_members f r4 with
                    | Ok l r5 => Ok ((k, v) :: l) r5
                    | Malformed => Malformed
                    | Exhausted => Exhausted
                    end
                  else if c =? 125 then Ok [(k, v)] r4
                  else Malformed
                end
              end
            else Malformed
          end
        end
      else Malformed
    end
  end.

(** [JSON.parse(text)]: [None] stands for the [SyntaxError] it throws. *)
Definition parse (text : jsstring) : option value :=
  match parse_value (2 * length text + 2) text with
  | Ok v r => match skipWs r with [] => Some v | _ :: _ => None end
  | Malformed | Exhausted => None
  end.

End JSON.


(** ** What the two services share: transport, observations, decoding *)

(** An axios error: [error.response?.status] and the message. *)
Record Error := mkError {
  status : option Z;
  message : string
}.

(** Outcome of [await axiosInstance.post(...)]. *)
Inductive Outcome (R : Type) :=
| Resolve (data : R)
| Reject (error : Error).
Arguments Resolve {R} data.
Arguments Reject {R} error.

(** A request body: the own properties of the object, in order. *)
Definition Body := list (jsstring * JSON.value).

(** [{ ...body, stream: true }]. *)
Fixpoint set_property (k : jsstring) (v : JSON.value) (o : Body) : Body :=
  match o with
  | [] => [(k, v)]
  | (k', v') :: r => if JS.eqb k' k then (k', v) :: r
                     else (k', v') :: set_property k v r
  end.

(** [response.data] of a [responseType: 'stream'] request: the chunks the
    stream delivers and, when it breaks, the error raised after them. *)
Record Readable := mkReadable {
  chunks : list (list byte);
  failure : option Error
}.

(** What a call does that its caller, the transport or the clock can see. *)
Inductive Obs :=
| Post (endpoint : string) (body : Body)
| Sleep (delay : JS.number)
| Yield (event : JSON.value).

(** How a call completes. *)
Inductive Completion (A : Type) :=
| Return (result : A)
| Throw (error : Error).
Arguments Return {A} result.
Arguments Throw {A} error.

Record Config := mkConfig {
  OPENAI_API_KEY : option string;
  OPENAI_BASE_URL : option string;
  USE_SYSTEM_PROXY_OPENAI : option bool;
  REQUEST_MAX_RETRIES : JS.number;
  REQUEST_BASE_DELAY : JS.number
}.

(** [Math.pow(2, retryCount)]. *)
Definition pow2 (retryCount : nat) : Z := 2 ^ Z.of_nat retryCount.

Definition is_auth (st : option Z) : bool :=
  match st with
  | Some s => (s =? 401) || (s =? 403)
  | None => false
  end.

Definition is_429 (st : option Z) : bool :=
  match st with
  | Some s => s =? 429
  | None => false
  end.

Definition is_5xx (st : option Z) : bool :=
  match st with
  | Some s => (500 <=? s) && (s <? 600)
  | None => false
  end.

(** A value together with the equation that names it, for the loops whose
    termination depends on a test. *)
Definition inspect {A : Type} (a : A) : {b : A | a = b} := exist _ a eq_refl.

(** Rewrites with [H] in the right-hand side of the goal only. *)
Ltac on_rhs H :=
  symmetry; etransitivity; [rewrite H; reflexivity | symmetry].

Section Decoder.

Variable JSON_parse : jsstring -> option JSON.value.

(** What one trimmed line asks for: the body of the [while] loop, lines
    114-127 of [openai-core.js] and 113-126 of [openai-responses-core.js],
    the same text up to the warning's wording. *)
Inductive LineAction :=
| Terminate
| Emit (parsedChunk : JSON.value)
| Ignore.

Definition on_line (line : jsstring) : LineAction :=
  if startsWith (lit "data: ") line then
    let jsonData := trim (substringFrom 6 line) in
    if JS.eqb jsonData (lit "[DONE]") then Terminate
    else match JSON_parse jsonData with
         | Some parsedChunk => Emit parsedChunk
         | None => Ignore
         end
  else Ignore.

Lemma indexOf_bound c s i : indexOf c s = Some i -> (i < length s)%nat.
Proof.
  revert i. induction s as [|x r IH]; simpl; intros i H; [discriminate|].
  destruct (x =? c).
  - inversion H. lia.
  - destruct (indexOf c r) as [j|]; simpl in H; [|discriminate].
    inversion H. specialize (IH j eq_refl). lia.
Qed.

(** The [while] loop over the complete lines of the buffer (lines 110-128,
    resp. 109-127): the events it yields, and the buffer it leaves, or
    [None] when [[DONE]] made the generator return. *)
Equations? while_lines (buffer : jsstring) : list JSON.value * option jsstring
  by wf (length buffer) lt :=
while_lines buffer with inspect (indexOf NL buffer) := {
  | exist _ None _ => ([], Some buffer)
  | exist _ (Some newlineIndex) H
      with on_line (trim (substring 0 newlineIndex buffer)) := {
      | Terminate => ([], None)
      | Emit parsedChunk =>
          let '(evs, b) := while_lines (substringFrom (newlineIndex + 1) buffer) in
          (parsedChunk :: evs, b)
      | Ignore => while_lines (substringFrom (newlineIndex + 1) buffer) } }.
Proof.
  all: apply indexOf_bound in H; unfold substringFrom; rewrite length_skipn; lia.
Qed.

(** How the [for await] loop (lines 104-129, resp. 104-128) is left: the
    source ran dry, or [[DONE]] made the generator return with some chunks
    never pulled. *)
Inductive LoopExit :=
| Exhausted (buffer : jsstring) (decoder : StringDecoder.t)
| Returned (unread : list (list byte)).

Fixpoint for_await (stream : list (list byte)) (buffer : jsstring)
    (decoder : StringDecoder.t) : list JSON.value * LoopExit :=
  match stream with
  | [] => ([], Exhausted buffer decoder)
  | chunk :: rest =>
    let '(text, decoder') := StringDecoder.write decoder chunk in
    match while_lines (buffer ++ text) with
    | (evs, None) => (evs, Returned rest)
    | (evs, Some buffer') =>
      let '(evs', exit) := for_await rest buffer' decoder' in
      (evs ++ evs', exit)
    end
  end.

(** The body of [streamApi]'s [try] once the response is there, given the
    end-of-stream step [final]: the events yielded and the error raised
    inside the block, if any. *)
Definition read_stream (final : jsstring -> StringDecoder.t -> list JSON.value)
    (stream : Readable) : list JSON.value * option Error :=
  match for_await (chunks stream) [] StringDecoder.init with
  | (evs, Returned _) => (evs, None)
  | (evs, Exhausted buffer decoder) =>
    match failure stream with
    | Some e => (evs, Some e)
    | None => (evs ++ final buffer decoder, None)
    end
  end.

End Decoder.

(** [retryCount < maxRetries] leaves this many further attempts. *)
Definition budget (maxRetries : JS.number) (retryCount : nat) : nat :=
  match maxRetries with
  | num m => Z.to_nat (m - Z.of_nat retryCount)
  | _ => O
  end.

Lemma budget_decreases maxRetries retryCount :
  lessThan (Z.of_nat retryCount) maxRetries = true ->
  (budget maxRetries (S retryCount) < budget maxRetries retryCount)%nat.
Proof.
  destruct maxRetries as [|m|]; simpl; try discriminate.
  intros H. apply Z.ltb_lt in H. lia.
Qed.

(** ** [OpenAIApiService] ([openai-core.js]) *)

Module OpenAIApiService.

Record t := mk {
  config : Config;
  apiKey : string;
  baseUrl : option string;
  useSystemProxy : bool
}.

(** The constructor (lines 9-49); [inl] is the message of the [Error] it
    throws.  The agents and the axios instance it builds are the transport,
    a parameter of the methods. *)
Definition new (config : Config) : string + t :=
  match OPENAI_API_KEY config with
  | None | Some EmptyString =>
    inl "OpenAI API Key is required for OpenAIApiService."%string
  | Some key =>
    inr (mk config key (OPENAI_BASE_URL config)
            (match USE_SYSTEM_PROXY_OPENAI config with
             | Some b => b
             | None => false
             end))
  end.

Section Methods.

Variable T : Type.
Variable this : t.

Definition maxRetries : JS.number := REQUEST_MAX_RETRIES (config this).
Definition baseDelay : JS.number := REQUEST_BASE_DELAY (config this).

Section Buffered.

(** [this.axiosInstance.post(endpoint, body)]. *)
Variable post : T -> string -> Body -> Outcome JSON.value * T.

(** [callApi] (lines 51-85): the completion, the transport state left and
    the observations made. *)
Equations? callApi (endpoint : string) (body : Body) (isRetry : bool)
    (retryCount : nat) (net : T) : Completion JSON.value * T * list Obs
  by wf (budget maxRetries retryCount) lt :=
callApi endpoint body isRetry retryCount net with post net endpoint body := {
  | (Resolve data, net') => (Return data, net', [Post endpoint body])
  | (Reject error, net') with is_auth (status error) := {
    | true => (Throw error, net', [Post endpoint body])
    | false
        with inspect (is_429 (status error)
                      && lessThan (Z.of_nat retryCount) maxRetries) := {
      | exist _ true H =>
          let delay := mul baseDelay (pow2 retryCount) in
          let '(r, net'', obs) :=
            callApi endpoint body isRetry (S retryCount) net' in
          (r, net'', Post endpoint body :: Sleep delay :: obs)
      | exist _ false _
          with inspect (is_5xx (status error)
                        && lessThan (Z.of_nat retryCount) maxRetries) := {
        | exist _ true H =>
            let delay := mul baseDelay (pow2 retryCount) in
            let '(r, net'', obs) :=
              callApi endpoint body isRetry (S retryCount) net' in
            (r, net'', Post endpoint body :: Sleep delay :: obs)
        | exist _ false _ => (Throw error, net', [Post endpoint body]) } } } }.
Proof.
  all: apply budget_decreases; apply andb_prop in H; tauto.
Qed.

Definition generateContent (model : string) (requestBody : Body) (net : T) :=
  callApi "/chat/completions" requestBody false 0 net.

End Buffered.

Section Streaming.

Variable JSON_parse : jsstring -> option JSON.value.

(** [this.axiosInstance.post(endpoint, streamRequestBody,
    { responseType: 'stream' })]. *)
Variable post_stream : T -> string -> Body -> Outcome Readable * T.

(** The end-of-stream step (lines 133-152): the decoder's residue joins the
    buffer and what is left is handled as one last line. *)
Definition final (buffer : jsstring) (decoder : StringDecoder.t)
  : list JSON.value :=
  let buffer := buffer ++ StringDecoder.end_ decoder in
  if (0 <? length buffer)%nat then
    let line := trim buffer in
    if startsWith (lit "data: ") line then
      let jsonData := trim (substringFrom 6 line) in
      if JS.eqb jsonData (lit "[DONE]") then []
      else match JSON_parse jsonData with
           | Some parsedChunk => [parsedChunk]
           | None => []
           end
    else []
  else [].

(** [{ ...body, stream: true }]. *)
Definition streamRequestBody (body : Body) : Body :=
  set_property (lit "stream") (JSON.Bool true) body.

(** The [try] block of [streamApi] (from line 94): the events it yields and
    the error it hands to [catch], if any. *)
Definition try_block (response : Outcome Readable)
  : list JSON.value * option Error :=
  match response with
  | Reject error => ([], Some error)
  | Resolve stream => read_stream JSON_parse final stream
  end.

(** [streamApi]: the completion of the generator, the transport state left
    and the observations made, yielded events included. *)
Equations? streamApi (endpoint : string) (body : Body) (isRetry : bool)
    (retryCount : nat) (net : T) : Completion unit * T * list Obs
  by wf (budget maxRetries retryCount) lt :=
streamApi endpoint body isRetry retryCount net
    with post_stream net endpoint (streamRequestBody body) := {
  | (response, net') with try_block response := {
    | (evs, None) =>
        (Return tt, net',
         Post endpoint (streamRequestBody body) :: map Yield evs)
    | (evs, Some error) with is_auth (status error) := {
      | true =>
          (Throw error, net',
           Post endpoint (streamRequestBody body) :: map Yield evs)
      | false
          with inspect (is_429 (status error)
                        && lessThan (Z.of_nat retryCount) maxRetries) := {
        | exist _ true H =>
            let delay := mul baseDelay (pow2 retryCount) in
            let '(r, net'', obs) :=
              streamApi endpoint body isRetry (S retryCount) net' in
            (r, net'',
             Post endpoint (streamRequestBody body)
               :: map Yield evs ++ Sleep delay :: obs)
        | exist _ false _
            with inspect (is_5xx (status error)
                          && lessThan (Z.of_nat retryCount) maxRetries) := {
          | exist _ true H =>
              let delay := mul baseDelay (pow2 retryCount) in
              let '(r, net'', obs) :=
                streamApi endpoint body isRetry (S retryCount) net' in
              (r, net'',
               Post endpoint (streamRequestBody body)
                 :: map Yield evs ++ Sleep delay :: obs)
          | exist _ false _ =>
              (Throw error, net',
               Post endpoint (streamRequestBody body) :: map Yield evs)
          } } } } }.
Proof.
  all: apply budget_decreases; apply andb_prop in H; tauto.
Qed.

Definition generateContentStream (model : string) (requestBody : Body)
    (net : T) :=
  streamApi "/chat/completions" requestBody false 0 net.

End Streaming.

End Methods.

Arguments callApi {T} this post endpoint body isRetry retryCount net.
Arguments streamApi {T} this JSON_parse post_stream endpoint body isRetry
  retryCount net.
Arguments generateContent {T} this post model requestBody net.
Arguments generateContentStream {T} this JSON_parse post_stream model
  requestBody net.

End OpenAIApiService.

(** ** [OpenAIResponsesApiService] ([openai-responses-core.js]) *)

Module OpenAIResponsesApiService.

Record t := mk {
  config : Config;
  apiKey : string;
  baseUrl : option string;
  useSystemProxy : bool
}.

(** The constructor (lines 9-49); [inl] is the message of the [Error] it
    throws.  The agents and the axios instance it builds are the transport,
    a parameter of the methods. *)
Definition new (config : Config) : string + t :=
  match OPENAI_API_KEY config with
  | None | Some EmptyString =>
    inl "OpenAI API Key is required for OpenAIResponsesApiService."%string
  | Some key =>
    inr (mk config key (match OPENAI_BASE_URL config with
                         | None | Some EmptyString =>
                           Some "https://api.openai.com/v1"%string
                         | Some url => Some url
                         end)
            (match USE_SYSTEM_PROXY_OPENAI config with
             | Some b => b
             | None => false
             end))
  end.

Section Methods.

Variable T : Type.
Variable this : t.

Definition maxRetries : JS.number := or_default (REQUEST_MAX_RETRIES (config this)) 3.
Definition baseDelay : JS.number := or_default (REQUEST_BASE_DELAY (config this)) 1000.

Section Buffered.

(** [this.axiosInstance.post(endpoint, body)]. *)
Variable post : T -> string -> Body -> Outcome JSON.value * T.

(** [callApi] (lines 51-85): the completion, the transport state left and
    the observations made. *)
Equations? callApi (endpoint : string) (body : Body) (isRetry : bool)
    (retryCount : nat) (net : T) : Completion JSON.value * T * list Obs
  by wf (budget maxRetries retryCount) lt :=
callApi endpoint body isRetry retryCount net with post net endpoint body := {
  | (Resolve data, net') => (Return data, net', [Post endpoint body])
  | (Reject error, net') with is_auth (status error) := {
    | true => (Throw error, net', [Post endpoint body])
    | false
        with inspect (is_429 (status error)
                      && lessThan (Z.of_nat retryCount) maxRetries) := {
      | exist _ true H =>
          let delay := mul baseDelay (pow2 retryCount) in
          let '(r, net'', obs) :=
            callApi endpoint body isRetry (S retryCount) net' in
          (r, net'', Post endpoint body :: Sleep delay :: obs)
      | exist _ false _
          with inspect (is_5xx (status error)
                        && lessThan (Z.of_nat retryCount) maxRetries) := {
        | exist _ true H =>
            let delay := mul baseDelay (pow2 retryCount) in
            let '(r, net'', obs) :=
              callApi endpoint body isRetry (S retryCount) net' in
            (r, net'', Post endpoint body :: Sleep delay :: obs)
        | exist _ false _ => (Throw error, net', [Post endpoint body]) } } } }.
Proof.
  all: apply budget_decreases; apply andb_prop in H; tauto.
Qed.

Definition generateContent (model : string) (requestBody : Body) (net : T) :=
  callApi "/responses" requestBody false 0 net.

End Buffered.

Section Streaming.

Variable JSON_parse : jsstring -> option JSON.value.

(** [this.axiosInstance.post(endpoint, streamRequestBody,
    { responseType: 'stream' })]. *)
Variable post_stream : T -> string -> Body -> Outcome Readable * T.

(** The end-of-stream step (lines 130-145): the decoder's residue joins the
    buffer and what is left is handled as one last line. *)
Definition final (buffer : jsstring) (decoder : StringDecoder.t)
  : list JSON.value :=
  let buffer := buffer ++ StringDecoder.end_ decoder in
  if (0 <? length buffer)%nat then
    let line := trim buffer in
    if startsWith (lit "data: ") line then
      let jsonData := trim (substringFrom 6 line) in
      if negb (JS.eqb jsonData (lit "[DONE]")) then
        match JSON_parse jsonData with
        | Some parsedChunk => [parsedChunk]
        | None => []
        end
      else []
    else []
  else [].

(** [{ ...body, stream: true }]. *)
Definition streamRequestBody (body : Body) : Body :=
  set_property (lit "stream") (JSON.Bool true) body.

(** The [try] block of [streamApi] (from line 94): the events it yields and
    the error it hands to [catch], if any. *)
Definition try_block (response : Outcome Readable)
  : list JSON.value * option Error :=
  match response with
  | Reject error => ([], Some error)
  | Resolve stream => read_stream JSON_parse final stream
  end.

(** [streamApi]: the completion of the generator, the transport state left
    and the observations made, yielded events included. *)
Equations? streamApi (endpoint : string) (body : Body) (isRetry : bool)
    (retryCount : nat) (net : T) : Completion unit * T * list Obs
  by wf (budget maxRetries retryCount) lt :=
streamApi endpoint body isRetry retryCount net
    with post_stream net endpoint (streamRequestBody body) := {
  | (response, net') with try_block response := {
    | (evs, None) =>
        (Return tt, net',
         Post endpoint (streamRequestBody body) :: map Yield evs)
    | (evs, Some error) with is_auth (status error) := {
      | true =>
          (Throw error, net',
           Post endpoint (streamRequestBody body) :: map Yield evs)
      | false
          with inspect (is_429 (status error)
                        && lessThan (Z.of_nat retryCount) maxRetries) := {
        | exist _ true H =>
            let delay := mul baseDelay (pow2 retryCount) in
            let '(r, net'', obs) :=
              streamApi endpoint body isRetry (S retryCount) net' in
            (r, net'',
             Post endpoint (streamRequestBody body)
               :: map Yield evs ++ Sleep delay :: obs)
        | exist _ false _
            with inspect (is_5xx (status error)
                          && lessThan (Z.of_nat retryCount) maxRetries) := {
          | exist _ true H =>
              let delay := mul baseDelay (pow2 retryCount) in
              let '(r, net'', obs) :=
                streamApi endpoint body isRetry (S retryCount) net' in
              (r, net'',
               Post endpoint (streamRequestBody body)
                 :: map Yield evs ++ Sleep delay :: obs)
          | exist _ false _ =>
              (Throw error, net',
               Post endpoint (streamRequestBody body) :: map Yield evs)
          } } } } }.
Proof.
  all: apply budget_decreases; apply andb_prop in H; tauto.
Qed.

Definition generateContentStream (model : string) (requestBody : Body)
    (net : T) :=
  streamApi "/responses" requestBody false 0 net.

End Streaming.

End Methods.

Arguments callApi {T} this post endpoint body isRetry retryCount net.
Arguments streamApi {T} this JSON_parse post_stream endpoint body isRetry
  retryCount net.
Arguments generateContent {T} this post model requestBody net.
Arguments generateContentStream {T} this JSON_parse post_stream model
  requestBody net.

End OpenAIResponsesApiService.

(** ** Reference points for the properties *)

(** The decoding session seen from the text side: what [streamApi]'s [try]
    block does with the text [decoder.write] has produced in total, given
    the decoder state reached, the end-of-stream step and the error the
    source raises at its end, if any. *)
Definition session (JSON_parse : jsstring -> option JSON.value)
    (final : jsstring -> StringDecoder.t -> list JSON.value)
    (failure : option Error) (decoder : StringDecoder.t) (text : jsstring)
  : list JSON.value * option Error :=
  match while_lines JSON_parse text with
  | (evs, None) => (evs, None)
  | (evs, Some r) =>
    match failure with
    | Some e => (evs, Some e)
    | None => (evs ++ final r decoder, None)
    end
  end.

(** [body[k]]. *)
Fixpoint get_property (k : jsstring) (o : Body) : option JSON.value :=
  match o with
  | [] => None
  | (k', v) :: r => if JS.eqb k' k then Some v else get_property k r
  end.

(** The requests among the observations of a call. *)
Definition is_post (o : Obs) : bool :=
  match o with
  | Post _ _ => true
  | _ => false
  end.

Definition posts (obs : list Obs) : list Obs := filter is_post obs.

(** The two retry tests of the [catch] blocks taken together: status 429 or
    5xx, and [retryCount < maxRetries]. *)
Definition retries (st : option Z) (retryCount : nat) (maxRetries : JS.number)
  : bool :=
  (is_429 st && lessThan (Z.of_nat retryCount) maxRetries)
  || (is_5xx st && lessThan (Z.of_nat retryCount) maxRetries).

(** A transport that answers by the number of requests made so far. *)
Definition scripted {R : Type} (script : nat -> Outcome R)
    (net : nat) (endpoint : string) (body : Body) : Outcome R * nat :=
  (script net, S net).

(** Every request of the observations is [p], and the first observation is
    such a request. *)
Definition sends_only (p : Obs) (obs : list Obs) : Prop :=
  Forall (fun o => o = p) (posts obs) /\ hd_error obs = Some p.

(** Inputs of the examples are written with an apostrophe wherever the
    text has a double quote: [bytes] gives the chunk, [text] the JavaScript
    string. *)
Definition requote (b : byte) : byte :=
  match b with
  | x27 => x22
  | _ => b
  end.

Definition bytes (s : string) : list byte :=
  map requote (list_byte_of_string s).
Arguments bytes s%_string.

Definition text (s : string) : jsstring :=
  map (fun b => Z.of_N (Byte.to_N b)) (bytes s).
Arguments text s%_string.

(** ** Reference points for the further properties *)

Definition is_yield (o : Obs) : bool :=
  match o with
  | Yield _ => true
  | _ => false
  end.

(** The requests and the waits among the observations of a call, in order:
    what is left when the yielded events are taken out. *)
Definition effects (obs : list Obs) : list Obs :=
  filter (fun o => negb (is_yield o)) obs.

(** The events among the observations of a call, in order. *)
Fixpoint yields (obs : list Obs) : list JSON.value :=
  match obs with
  | [] => []
  | Yield v :: r => v :: yields r
  | _ :: r => yields r
  end.

(** [n] failed attempts in a row, the first at retry count [retryCount]:
    each is the request [p] followed by the wait
    [baseDelay * Math.pow(2, retryCount)] of its retry count. *)
Fixpoint rounds (p : Obs) (baseDelay : JS.number) (retryCount n : nat)
  : list Obs :=
  match n with
  | O => []
  | S k => p :: Sleep (mul baseDelay (pow2 retryCount))
             :: rounds p baseDelay (S retryCount) k
  end.

(** Status 429 or 5xx: the statuses the [catch] blocks retry on. *)
Definition retryable (st : option Z) : bool := is_429 st || is_5xx st.

(** The property names of a body, in order. *)
Definition keys (o : Body) : list jsstring := map fst o.

(** The answer [o] of the transport is what the completion [r] of a call
    hands on: the body it returns, or the error it throws. *)
Definition decided_by (o : Outcome JSON.value) (r : Completion JSON.value)
  : Prop :=
  match r with
  | Return d => o = Resolve d
  | Throw e => o = Reject e
  end.

(** * Properties *)

(** ** The parser on a few texts *)

Example parse_object :
  JSON.parse (text "{'x':2}") =
  Some (JSON.Object [(lit "x", JSON.Number 2 0)]).
Proof. reflexivity. Qed.

Example parse_nested :
  JSON.parse (text " [1.50, -2e3, {'k' : [true, null], 'z':{}}, 'a\u0041'] ") =
  Some (JSON.Array
          [JSON.Number 15 (-1); JSON.Number (-2) 3;
           JSON.Object [(lit "k", JSON.Array [JSON.Bool true; JSON.Null]);
                        (lit "z", JSON.Object [])];
           JSON.String (lit "aA")]).
Proof. reflexivity. Qed.

Example parse_rejects :
  map JSON.parse [text "[DONE]"; text "01"; text "1."; text "{'a':1,}"; [];
                  text "null x"; text "{'a':"]
  = [None; None; None; None; None; None; None].
Proof. reflexivity. Qed.

(** ** The parser never runs out of fuel *)

Lemma skipWs_length s : (length (JSON.skipWs s) <= length s)%nat.
Proof.
  induction s as [|c r IH]; simpl; [lia|].
  destruct (JSON.isWs c); simpl; lia.
Qed.

Lemma digits_length s : forall acc n m k r,
  JSON.digits acc n s = (m, k, r) -> (length r <= length s)%nat.
Proof.
  induction s as [|c s IH]; simpl; intros acc n m k r H.
  - inversion H; subst. simpl. lia.
  - destruct (JSON.isDigit c).
    + apply IH in H. lia.
    + inversion H; subst. simpl. lia.
Qed.

Lemma parse_chars_length s : forall acc str r,
  JSON.parse_chars acc s = Some (str, r) -> (length r < length s)%nat.
Proof.
  remember (length s) as n eqn:Hn. revert s Hn.
  induction n as [n IH] using lt_wf_ind. intros s Hn acc str r.
  destruct s as [|c s]; simpl; [discriminate|].
  destruct (c =? 34).
  { intros H. inversion H; subst. simpl. lia. }
  destruct (c =? 92).
  - destruct s as [|e s1]; [discriminate|].
    destruct (e =? 117).
    + destruct s1 as [|h1 [|h2 [|h3 [|h4 r2]]]]; try discriminate.
      destruct (JSON.hex4 h1 h2 h3 h4); [|discriminate].
      intros H. apply (IH (length r2)) in H; subst; simpl in *; try lia; reflexivity.
    + destruct (JSON.escape e); [|discriminate].
      intros H. apply (IH (length s1)) in H; subst; simpl in *; try lia; reflexivity.
  - destruct (c <? 32); [discriminate|].
    intros H. apply (IH (length s)) in H; subst; simpl in *; try lia; reflexivity.
Qed.

Lemma parse_number_length s v r :
  JSON.parse_number s = Some (v, r) -> (length r < length s)%nat.
Proof.
  unfold JSON.parse_number.
  set (sg := match s with
             | c :: r0 => if c =? 45 then (true, r0) else (false, s)
             | [] => (false, s)
             end).
  assert (Hs1 : (length (snd sg) <= length s)%nat).
  { subst sg. destruct s as [|c r0]; simpl; [lia|].
    destruct (c =? 45); simpl; lia. }
  destruct sg as [neg s1]. simpl in Hs1.
  set (ip := match s1 with
             | c :: r0 => if c =? 48 then Some (0, 1%nat, r0)
                          else if JSON.isDigit c then Some (JSON.digits 0 0 s1)
                          else None
             | [] => None
             end).
  assert (Hip : forall i ni s2, ip = Some (i, ni, s2) ->
                                (length s2 < length s1)%nat).
  { subst ip. intros i ni s2. destruct s1 as [|c r0]; [discriminate|].
    destruct (c =? 48).
    - intros H. inversion H; subst. simpl. lia.
    - destruct (JSON.isDigit c) eqn:D; [|discriminate].
      simpl. rewrite D. intros H. inversion H as [H'].
      apply digits_length in H'. simpl. lia. }
  destruct ip as [[[i ni] s2]|]; [|discriminate].
  specialize (Hip i ni s2 eq_refl).
  set (fp := match s2 with
             | c :: r0 => if c =? 46 then
                            let '(m, k, r') := JSON.digits i 0 r0 in
                            match k with O => None | S _ => Some (m, k, r') end
                          else Some (i, O, s2)
             | [] => Some (i, O, s2)
             end).
  assert (Hfp : forall m k s3, fp = Some (m, k, s3) ->
                               (length s3 <= length s2)%nat).
  { subst fp. intros m k s3. destruct s2 as [|c r0].
    - intros H. inversion H; subst. simpl. lia.
    - destruct (c =? 46).
      + destruct (JSON.digits i 0 r0) as [[m' k'] r'] eqn:D.
        destruct k'; [discriminate|]. intros H. inversion H; subst.
        apply digits_length in D. simpl. lia.
      + intros H. inversion H; subst. simpl. lia. }
  destruct fp as [[[m k] s3]|]; [|discriminate].
  specialize (Hfp m k s3 eq_refl).
  set (ep := match s3 with
             | c :: r0 =>
               if (c =? 101) || (c =? 69) then
                 let '(sgn, r1) := match r0 with
                                   | c' :: r' => if c' =? 45 then (-1, r')
                                                 else if c' =? 43 then (1, r')
                                                 else (1, r0)
                                   | [] => (1, r0)
                                   end in
                 let '(x, nx, r2) := JSON.digits 0 0 r1 in
                 match nx with O => None | S _ => Some (sgn * x, r2) end
               else Some (0, s3)
             | [] => Some (0, s3)
             end).
  assert (Hep : forall x s4, ep = Some (x, s4) -> (length s4 <= length s3)%nat).
  { subst ep. intros x s4. destruct s3 as [|c r0].
    - intros H. inversion H; subst. simpl. lia.
    - destruct ((c =? 101) || (c =? 69)).
      + set (sp := match r0 with
                   | c' :: r' => if c' =? 45 then (-1, r')
                                 else if c' =? 43 then (1, r')
                                 else (1, r0)
                   | [] => (1, r0)
                   end).
        assert (Hsp : (length (snd sp) <= length r0)%nat).
        { subst sp. destruct r0 as [|c' r']; simpl; [lia|].
          destruct (c' =? 45); simpl; [lia|].
          destruct (c' =? 43); simpl; lia. }
        destruct sp as [sgn r1]. simpl in Hsp.
        destruct (JSON.digits 0 0 r1) as [[x' nx] r2] eqn:D.
        destruct nx; [discriminate|]. intros H. inversion H; subst.
        apply digits_length in D. simpl. lia.
      + intros H. inversion H; subst. simpl. lia. }
  destruct ep as [[x s4]|]; [|discriminate].
  specialize (Hep x s4 eq_refl).
  destruct (JSON.normalise _ _ _) as [m' e'].
  intros H. inversion H; subst. lia.
Qed.

Lemma startsWith_length p s :
  startsWith p s = true -> (length p <= length s)%nat.
Proof.
  revert s. induction p as [|x p IH]; intros [|y s]; simpl; intros H;
    try lia; try discriminate.
  apply andb_prop in H. destruct H as [_ H]. apply IH in H. lia.
Qed.

Ltac parser_step :=
  cbn -[startsWith lit skipn JSON.skipWs JSON.parse_chars JSON.parse_number].

Lemma parse_consumes f :
  (forall s v r, JSON.parse_value f s = JSON.Ok v r ->
                 (length r < length s)%nat)
  /\ (forall s l r, JSON.parse_elements f s = JSON.Ok l r ->
                    (length r < length s)%nat)
  /\ (forall s l r, JSON.parse_members f s = JSON.Ok l r ->
                    (length r < length s)%nat).
Proof.
  induction f as [|f (IHv & IHe & IHm)];
    [repeat split; intros; discriminate|].
  repeat split.
  - intros s v r. parser_step.
    pose proof (skipWs_length s) as Hs.
    destruct (startsWith (lit "null") (JSON.skipWs s)) eqn:E1.
    { apply startsWith_length in E1. simpl in E1.
      assert (L : (length (skipn 4 (JSON.skipWs s)) < length s)%nat)
        by (rewrite length_skipn; lia).
      intros H. inversion H; subst. exact L. }
    destruct (startsWith (lit "true") (JSON.skipWs s)) eqn:E2.
    { apply startsWith_length in E2. simpl in E2.
      assert (L : (length (skipn 4 (JSON.skipWs s)) < length s)%nat)
        by (rewrite length_skipn; lia).
      intros H. inversion H; subst. exact L. }
    destruct (startsWith (lit "false") (JSON.skipWs s)) eqn:E3.
    { apply startsWith_length in E3. simpl in E3.
      assert (L : (length (skipn 5 (JSON.skipWs s)) < length s)%nat)
        by (rewrite length_skipn; lia).
      intros H. inversion H; subst. exact L. }
    destruct (JSON.skipWs s) as [|c r0] eqn:Es; [discriminate|].
    simpl in Hs.
    destruct (c =? 34).
    { destruct (JSON.parse_chars [] r0) as [[str r']|] eqn:P; [|discriminate].
      apply parse_chars_length in P. intros H. inversion H; subst. lia. }
    destruct (c =? 91).
    { pose proof (skipWs_length r0) as Hr.
      destruct (JSON.skipWs r0) as [|c' r'] eqn:Er; [discriminate|].
      simpl in Hr. destruct (c' =? 93).
      - intros H. inversion H; subst. lia.
      - destruct (JSON.parse_elements f r0) as [l r''| |] eqn:P;
          try discriminate.
        apply IHe in P. intros H. inversion H; subst. lia. }
    destruct (c =? 123).
    { pose proof (skipWs_length r0) as Hr.
      destruct (JSON.skipWs r0) as [|c' r'] eqn:Er; [discriminate|].
      simpl in Hr. destruct (c' =? 125).
      - intros H. inversion H; subst. lia.
      - destruct (JSON.parse_members f r0) as [l r''| |] eqn:P;
          try discriminate.
        apply IHm in P. intros H. inversion H; subst. lia. }
    destruct (JSON.parse_number (c :: r0)) as [[v' r']|] eqn:P;
      [|discriminate].
    apply parse_number_length in P. simpl in P.
    intros H. inversion H; subst. lia.
  - intros s l r. parser_step.
    destruct (JSON.parse_value f s) as [v r1| |] eqn:P; try discriminate.
    apply IHv in P. pose proof (skipWs_length r1) as Hr.
    destruct (JSON.skipWs r1) as [|c r'] eqn:Er; [discriminate|].
    simpl in Hr. destruct (c =? 44).
    + destruct (JSON.parse_elements f r') as [l' r''| |] eqn:Q;
        try discriminate.
      apply IHe in Q. intros H. inversion H; subst. lia.
    + destruct (c =? 93); [|discriminate].
      intros H. inversion H; subst. lia.
  - intros s l r. parser_step.
    pose proof (skipWs_length s) as Hs.
    destruct (JSON.skipWs s) as [|q r0] eqn:Es; [discriminate|].
    simpl in Hs. destruct (q =? 34); [|discriminate].
    destruct (JSON.parse_chars [] r0) as [[k r1]|] eqn:K; [|discriminate].
    apply parse_chars_length in K. pose proof (skipWs_length r1) as H1.
    destruct (JSON.skipWs r1) as [|colon r2] eqn:E1; [discriminate|].
    simpl in H1. destruct (colon =? 58); [|discriminate].
    destruct (JSON.parse_value f r2) as [v r3| |] eqn:P; try discriminate.
    apply IHv in P. pose proof (skipWs_length r3) as H3.
    destruct (JSON.skipWs r3) as [|c r4] eqn:E3; [discriminate|].
    simpl in H3. destruct (c =? 44).
    + destruct (JSON.parse_members f r4) as [l' r5| |] eqn:Q;
        try discriminate.
      apply IHm in Q. intros H. inversion H; subst. lia.
    + destruct (c =? 125); [|discriminate].
      intros H. inversion H; subst. lia.
Qed.

Lemma parse_fuel f :
  (forall s, (2 * length s + 1 <= f)%nat ->
             JSON.parse_value f s <> JSON.Exhausted)
  /\ (forall s, (2 * length s + 2 <= f)%nat ->
                JSON.parse_elements f s <> JSON.Exhausted)
  /\ (forall s, (2 * length s + 2 <= f)%nat ->
                JSON.parse_members f s <> JSON.Exhausted).
Proof.
  induction f as [|f (IHv & IHe & IHm)]; [repeat split; intros; lia|].
  repeat split.
  - intros s Hf. parser_step.
    pose proof (skipWs_length s) as Hs.
    destruct (startsWith (lit "null") (JSON.skipWs s)); [discriminate|].
    destruct (startsWith (lit "true") (JSON.skipWs s)); [discriminate|].
    destruct (startsWith (lit "false") (JSON.skipWs s)); [discriminate|].
    destruct (JSON.skipWs s) as [|c r0] eqn:Es; [discriminate|].
    simpl in Hs.
    destruct (c =? 34).
    { destruct (JSON.parse_chars [] r0) as [[str r']|]; discriminate. }
    destruct (c =? 91).
    { destruct (JSON.skipWs r0) as [|c' r']; [discriminate|].
      destruct (c' =? 93); [discriminate|].
      assert (H : JSON.parse_elements f r0 <> JSON.Exhausted)
        by (apply IHe; lia).
      destruct (JSON.parse_elements f r0); congruence. }
    destruct (c =? 123).
    { destruct (JSON.skipWs r0) as [|c' r']; [discriminate|].
      destruct (c' =? 125); [discriminate|].
      assert (H : JSON.parse_members f r0 <> JSON.Exhausted)
        by (apply IHm; lia).
      destruct (JSON.parse_members f r0); congruence. }
    destruct (JSON.parse_number (c :: r0)) as [[v' r']|]; discriminate.
  - intros s Hf. parser_step.
    assert (H : JSON.parse_value f s <> JSON.Exhausted) by (apply IHv; lia).
    destruct (JSON.parse_value f s) as [v r1| |] eqn:P;
      [|discriminate|congruence].
    apply (proj1 (parse_consumes f)) in P.
    pose proof (skipWs_length r1) as Hr.
    destruct (JSON.skipWs r1) as [|c r'] eqn:Er; [discriminate|].
    simpl in Hr. destruct (c =? 44).
    + assert (H' : JSON.parse_elements f r' <> JSON.Exhausted)
        by (apply IHe; lia).
      destruct (JSON.parse_elements f r'); congruence.
    + destruct (c =? 93); discriminate.
  - intros s Hf. parser_step.
    pose proof (skipWs_length s) as Hs.
    destruct (JSON.skipWs s) as [|q r0] eqn:Es; [discriminate|].
    simpl in Hs. destruct (q =? 34); [|discriminate].
    destruct (JSON.parse_chars [] r0) as [[k r1]|] eqn:K; [|discriminate].
    apply parse_chars_length in K. pose proof (skipWs_length r1) as H1.
    destruct (JSON.skipWs r1) as [|colon r2] eqn:E1; [discriminate|].
    simpl in H1. destruct (colon =? 58); [|discriminate].
    assert (H : JSON.parse_value f r2 <> JSON.Exhausted) by (apply IHv; lia).
    destruct (JSON.parse_value f r2) as [v r3| |] eqn:P;
      [|discriminate|congruence].
    apply (proj1 (parse_consumes f)) in P.
    pose proof (skipWs_length r3) as H3.
    destruct (JSON.skipWs r3) as [|c r4] eqn:E3; [discriminate|].
    simpl in H3. destruct (c =? 44).
    + assert (H' : JSON.parse_members f r4 <> JSON.Exhausted)
        by (apply IHm; lia).
      destruct (JSON.parse_members f r4); congruence.
    + destruct (c =? 125); discriminate.
Qed.

(** [JSON.parse] reports a syntax error only for a syntax error: the fuel
    it gives always suffices. *)
Lemma parse_never_exhausted text :
  JSON.parse_value (2 * length text + 2) text <> JSON.Exhausted.
Proof. apply (proj1 (parse_fuel _)). lia. Qed.

(** ** Strings *)

Lemma indexOf_split c s i :
  indexOf c s = Some i ->
  s = firstn i s ++ c :: skipn (S i) s /\ indexOf c (firstn i s) = None.
Proof.
  revert i. induction s as [|x r IH]; simpl; intros i H; [discriminate|].
  destruct (x =? c) eqn:E.
  - inversion H; subst. apply Z.eqb_eq in E. subst. simpl. auto.
  - destruct (indexOf c r) as [j|]; simpl in H; [|discriminate].
    inversion H; subst. destruct (IH j eq_refl) as [IH1 IH2].
    simpl. rewrite E, IH2. split; [f_equal; exact IH1 | reflexivity].
Qed.

Lemma indexOf_app_Some c x y i :
  indexOf c x = Some i -> indexOf c (x ++ y) = Some i.
Proof.
  revert i. induction x as [|a r IH]; simpl; intros i H; [discriminate|].
  destruct (a =? c); [exact H|].
  destruct (indexOf c r) as [j|]; simpl in H; [|discriminate].
  rewrite (IH j eq_refl). exact H.
Qed.

Lemma indexOf_app_None c x y :
  indexOf c x = None -> indexOf c y = None -> indexOf c (x ++ y) = None.
Proof.
  intros Hx Hy. induction x as [|a r IH]; simpl in *; [exact Hy|].
  destruct (a =? c); [discriminate|].
  destruct (indexOf c r); [discriminate|]. rewrite IH; reflexivity.
Qed.

Lemma indexOf_middle c l r :
  indexOf c l = None -> indexOf c (l ++ c :: r) = Some (length l).
Proof.
  induction l as [|a l IH]; simpl; intros H.
  - rewrite Z.eqb_refl. reflexivity.
  - destruct (a =? c); [discriminate|].
    destruct (indexOf c l); [discriminate|]. rewrite IH; reflexivity.
Qed.

Lemma indexOf_prefix_None c x y :
  indexOf c (x ++ y) = None -> indexOf c x = None.
Proof.
  destruct (indexOf c x) as [i|] eqn:E; [|reflexivity].
  intros H. rewrite (indexOf_app_Some c x y i E) in H. discriminate.
Qed.

Lemma substring_0 i (s : jsstring) :
  (i <= length s)%nat -> substring 0 i s = firstn i s.
Proof.
  intros H. unfold substring.
  change (Nat.min 0 (length s)) with 0%nat.
  rewrite (Nat.min_l i) by assumption.
  rewrite Nat.max_0_l, Nat.min_0_l, Nat.sub_0_r. reflexivity.
Qed.

Lemma substring_line l r :
  substring 0 (length l) (l ++ NL :: r) = l.
Proof.
  rewrite substring_0 by (rewrite length_app; lia).
  rewrite firstn_app, Nat.sub_diag, firstn_all. simpl. apply app_nil_r.
Qed.

Lemma substringFrom_line l r :
  substringFrom (length l + 1) (l ++ NL :: r) = r.
Proof.
  unfold substringFrom. rewrite skipn_app.
  replace (length l + 1 - length l)%nat with 1%nat by lia.
  rewrite skipn_all2 by lia. reflexivity.
Qed.

(** ** The line loop *)

Section DecoderFacts.

Variable JSON_parse : jsstring -> option JSON.value.

Lemma while_lines_eq buffer :
  while_lines JSON_parse buffer =
  match indexOf NL buffer with
  | None => ([], Some buffer)
  | Some newlineIndex =>
    match on_line JSON_parse (trim (substring 0 newlineIndex buffer)) with
    | Terminate => ([], None)
    | Emit parsedChunk =>
      let '(evs, b) := while_lines JSON_parse (substringFrom (newlineIndex + 1) buffer) in
      (parsedChunk :: evs, b)
    | Ignore => while_lines JSON_parse (substringFrom (newlineIndex + 1) buffer)
    end
  end.
Proof.
  simp while_lines.
  destruct (inspect (indexOf NL buffer)) as [[i|] H]; simp while_lines;
    on_rhs H; [|reflexivity].
  destruct (on_line JSON_parse _); simp while_lines; reflexivity.
Qed.

Lemma while_lines_no_newline buffer :
  indexOf NL buffer = None -> while_lines JSON_parse buffer = ([], Some buffer).
Proof. intros H. rewrite while_lines_eq, H. reflexivity. Qed.

Lemma while_lines_line line rest :
  indexOf NL line = None ->
  while_lines JSON_parse (line ++ NL :: rest) =
  match on_line JSON_parse (trim line) with
  | Terminate => ([], None)
  | Emit parsedChunk =>
    let '(evs, b) := while_lines JSON_parse rest in (parsedChunk :: evs, b)
  | Ignore => while_lines JSON_parse rest
  end.
Proof.
  intros H. rewrite while_lines_eq, (indexOf_middle _ _ rest H).
  rewrite substring_line, substringFrom_line. reflexivity.
Qed.

(** Cutting a buffer at its first newline. *)
Lemma first_line (s : jsstring) i :
  indexOf NL s = Some i ->
  exists line rest, s = line ++ NL :: rest /\ indexOf NL line = None
                    /\ (length rest < length s)%nat.
Proof.
  intros H. destruct (indexOf_split _ _ _ H) as [E N].
  exists (firstn i s), (skipn (S i) s). repeat split; auto.
  rewrite length_skipn. apply indexOf_bound in H. lia.
Qed.

(** Feeding more text after a buffer: the lines already complete are
    handled first, and a [[DONE]] among them ends everything. *)
Lemma while_lines_app x y :
  while_lines JSON_parse (x ++ y) =
  match while_lines JSON_parse x with
  | (evs, None) => (evs, None)
  | (evs, Some r) =>
    let '(evs', o) := while_lines JSON_parse (r ++ y) in (evs ++ evs', o)
  end.
Proof.
  remember (length x) as n eqn:Hn. revert x Hn.
  induction n as [n IH] using lt_wf_ind. intros x Hn.
  destruct (indexOf NL x) as [i|] eqn:E.
  - destruct (first_line _ _ E) as (line & rest & -> & Hl & Hlen).
    rewrite <- app_assoc. simpl.
    rewrite !while_lines_line by assumption.
    destruct (on_line JSON_parse (trim line)); [reflexivity| |].
    + rewrite (IH (length rest)) by (subst; auto).
      destruct (while_lines JSON_parse rest) as [evs [r|]]; [|reflexivity].
      destruct (while_lines JSON_parse (r ++ y)). reflexivity.
    + apply (IH (length rest)); subst; auto.
  - rewrite (while_lines_no_newline _ E).
    destruct (while_lines JSON_parse (x ++ y)). reflexivity.
Qed.

(** What the loop leaves in the buffer holds no newline. *)
Lemma while_lines_rest x evs r :
  while_lines JSON_parse x = (evs, Some r) -> indexOf NL r = None.
Proof.
  remember (length x) as n eqn:Hn. revert x Hn evs r.
  induction n as [n IH] using lt_wf_ind. intros x Hn evs r.
  destruct (indexOf NL x) as [i|] eqn:E.
  - destruct (first_line _ _ E) as (line & rest & -> & Hl & Hlen).
    rewrite while_lines_line by assumption.
    destruct (on_line JSON_parse (trim line)); [discriminate| |].
    + destruct (while_lines JSON_parse rest) as [e o] eqn:W. intros H.
      inversion H; subst. eapply (IH (length rest)); eauto.
    + intros H. subst n. eapply (IH (length rest)); eauto.
  - rewrite (while_lines_no_newline _ E). intros H. inversion H; subst. exact E.
Qed.

End DecoderFacts.

(** ** The chunk loop *)

Lemma write_app d a b :
  StringDecoder.write d (a ++ b) =
  let '(o1, d1) := StringDecoder.write d a in
  let '(o2, d2) := StringDecoder.write d1 b in
  (o1 ++ o2, d2).
Proof.
  revert d. induction a as [|x a IH]; intros d; simpl.
  - destruct (StringDecoder.write d b). reflexivity.
  - destruct (StringDecoder.step d _) as [o1 d1]. rewrite IH.
    destruct (StringDecoder.write d1 a) as [o2 d2].
    destruct (StringDecoder.write d2 b) as [o3 d3].
    rewrite app_assoc. reflexivity.
Qed.

Lemma end_no_newline d : indexOf NL (StringDecoder.end_ d) = None.
Proof. unfold StringDecoder.end_. destruct (StringDecoder.bytesNeeded d); reflexivity. Qed.

Section ChunkLoop.

Variable JSON_parse : jsstring -> option JSON.value.

(** The chunk loop computes what the line loop computes on the whole text:
    how the bytes were cut into chunks only decides how many chunks are left
    unread. *)
Lemma for_await_spec cs : forall b d evs exit,
  indexOf NL b = None ->
  for_await JSON_parse cs b d = (evs, exit) ->
  match exit with
  | Exhausted r d' =>
    while_lines JSON_parse (b ++ fst (StringDecoder.write d (concat cs)))
      = (evs, Some r)
    /\ d' = snd (StringDecoder.write d (concat cs))
  | Returned _ =>
    while_lines JSON_parse (b ++ fst (StringDecoder.write d (concat cs)))
      = (evs, None)
  end.
Proof.
  induction cs as [|c cs IH]; intros b d evs exit Hb; simpl.
  - intros H. inversion H; subst. rewrite app_nil_r.
    split; [apply while_lines_no_newline; exact Hb | reflexivity].
  - rewrite write_app.
    destruct (StringDecoder.write d c) as [t d1].
    destruct (StringDecoder.write d1 (concat cs)) as [t' d2] eqn:W2.
    simpl.
    destruct (while_lines JSON_parse (b ++ t)) as [e1 [r|]] eqn:W1.
    + destruct (for_await JSON_parse cs r d1) as [e2 x] eqn:F.
      intros H. inversion H; subst.
      specialize (IH r d1 e2 exit (while_lines_rest _ _ _ _ W1) F).
      rewrite W2 in IH. simpl in IH.
      rewrite app_assoc, while_lines_app, W1.
      destruct exit as [r' d'|u].
      * destruct IH as [-> ->]. auto.
      * rewrite IH. reflexivity.
    + intros H. inversion H; subst.
      rewrite app_assoc, while_lines_app, W1. reflexivity.
Qed.

Lemma for_await_app cs1 cs2 : forall b d,
  for_await JSON_parse (cs1 ++ cs2) b d =
  match for_await JSON_parse cs1 b d with
  | (e1, Exhausted r d') =>
    let '(e2, x) := for_await JSON_parse cs2 r d' in (e1 ++ e2, x)
  | (e1, Returned u) => (e1, Returned (u ++ cs2))
  end.
Proof.
  induction cs1 as [|c cs1 IH]; intros b d; simpl.
  - destruct (for_await JSON_parse cs2 b d). reflexivity.
  - destruct (StringDecoder.write d c) as [t d1].
    destruct (while_lines JSON_parse (b ++ t)) as [e1 [r|]]; [|reflexivity].
    rewrite IH.
    destruct (for_await JSON_parse cs1 r d1) as [e2 [r' d'|u]].
    + destruct (for_await JSON_parse cs2 r' d') as [e3 x].
      rewrite app_assoc. reflexivity.
    + reflexivity.
Qed.

(** The [try] block on a stream is the session on the text of its bytes. *)
Lemma read_stream_session final cs f :
  read_stream JSON_parse final (mkReadable cs f) =
  session JSON_parse final f
    (snd (StringDecoder.write StringDecoder.init (concat cs)))
    (fst (StringDecoder.write StringDecoder.init (concat cs))).
Proof.
  unfold read_stream, session. simpl.
  destruct (for_await JSON_parse cs [] StringDecoder.init) as [evs exit] eqn:F.
  apply for_await_spec in F; [|reflexivity]. simpl in F.
  destruct exit as [r d'|u].
  - destruct F as [-> ->]. reflexivity.
  - rewrite F. reflexivity.
Qed.

End ChunkLoop.

(** ** The end-of-stream step *)

Lemma final_core_on_line JSON_parse buffer decoder :
  OpenAIApiService.final JSON_parse buffer decoder =
  match on_line JSON_parse (trim (buffer ++ StringDecoder.end_ decoder)) with
  | Emit parsedChunk => [parsedChunk]
  | _ => []
  end.
Proof.
  unfold OpenAIApiService.final, on_line.
  destruct (buffer ++ StringDecoder.end_ decoder) as [|c s]; [reflexivity|].
  change (0 <? length (c :: s))%nat with true. cbv iota.
  destruct (startsWith _ _); [|reflexivity].
  destruct (JS.eqb _ _); [reflexivity|].
  destruct (JSON_parse _); reflexivity.
Qed.

Lemma final_responses_on_line JSON_parse buffer decoder :
  OpenAIResponsesApiService.final JSON_parse buffer decoder =
  match on_line JSON_parse (trim (buffer ++ StringDecoder.end_ decoder)) with
  | Emit parsedChunk => [parsedChunk]
  | _ => []
  end.
Proof.
  unfold OpenAIResponsesApiService.final, on_line.
  destruct (buffer ++ StringDecoder.end_ decoder) as [|c s]; [reflexivity|].
  change (0 <? length (c :: s))%nat with true. cbv iota.
  destruct (startsWith _ _); [|reflexivity].
  destruct (JS.eqb _ _); [reflexivity|]. simpl.
  destruct (JSON_parse _); reflexivity.
Qed.

Lemma final_same JSON_parse buffer decoder :
  OpenAIResponsesApiService.final JSON_parse buffer decoder =
  OpenAIApiService.final JSON_parse buffer decoder.
Proof. rewrite final_core_on_line, final_responses_on_line. reflexivity. Qed.

(** ** Claims about the decoder *)

(** C2. The events [streamApi]'s decoding loop yields, and the way the loop
    ends, depend on the bytes of the stream only, not on how they are cut
    into chunks: two chunk lists with the same concatenation (and the same
    error at the end of the source, if any) give the same result, in both
    services.  Cuts inside a multi-byte character or inside a [data: ] line
    are among them. *)
Theorem stream_events_independent_of_chunking
    (JSON_parse : jsstring -> option JSON.value)
    (cs1 cs2 : list (list byte)) (f : option Error) :
  concat cs1 = concat cs2 ->
  OpenAIApiService.try_block JSON_parse (Resolve (mkReadable cs1 f)) =
  OpenAIApiService.try_block JSON_parse (Resolve (mkReadable cs2 f))
  /\ OpenAIResponsesApiService.try_block JSON_parse (Resolve (mkReadable cs1 f)) =
     OpenAIResponsesApiService.try_block JSON_parse (Resolve (mkReadable cs2 f)).
Proof.
  intros H.
  unfold OpenAIApiService.try_block, OpenAIResponsesApiService.try_block.
  rewrite !read_stream_session, H. split; reflexivity.
Qed.

(** The line [data: "cafe"], its last letter carrying an acute accent (bytes
    c3 a9), cut inside the two bytes of that letter,
    against the same bytes cut inside the [data: ] prefix. *)
Lemma stream_events_independent_of_chunking_witness :
  let cs1 := [bytes "data: 'caf" ++ [xc3]; [xa9] ++ bytes "'" ++ [x0a]] in
  let cs2 := [bytes "da"; bytes "ta: 'caf" ++ [xc3; xa9] ++ bytes "'";
              [x0a]] in
  concat cs1 = concat cs2
  /\ OpenAIApiService.try_block JSON.parse (Resolve (mkReadable cs1 None)) =
     ([JSON.String [99; 97; 102; 233]], None)
  /\ OpenAIApiService.try_block JSON.parse (Resolve (mkReadable cs1 None)) =
     OpenAIApiService.try_block JSON.parse (Resolve (mkReadable cs2 None)).
Proof.
  intros cs1 cs2. split; [reflexivity|]. split; [reflexivity|].
  apply (stream_events_independent_of_chunking JSON.parse cs1 cs2 None).
  reflexivity.
Defined.

(** C7. When the line loop over the whole decoded text is not stopped by
    [[DONE]] and leaves an unterminated remainder [r], the end-of-stream
    step appends the decoder's residue to it and applies the line logic to
    the result once: if that line is a [data: ] line with a parsable
    payload, its event comes last.  In particular the single chunk
    [data: {"x":2}] without newline yields the event [{"x":2}]. *)
Theorem unterminated_final_line_flushed :
  (forall (JSON_parse : jsstring -> option JSON.value)
          (cs : list (list byte)) (text r : jsstring) (d : StringDecoder.t)
          (evs : list JSON.value) (v : JSON.value),
      StringDecoder.write StringDecoder.init (concat cs) = (text, d) ->
      while_lines JSON_parse text = (evs, Some r) ->
      on_line JSON_parse (trim (r ++ StringDecoder.end_ d)) = Emit v ->
      OpenAIApiService.try_block JSON_parse (Resolve (mkReadable cs None))
        = (evs ++ [v], None)
      /\ OpenAIResponsesApiService.try_block JSON_parse
           (Resolve (mkReadable cs None)) = (evs ++ [v], None))
  /\ OpenAIApiService.try_block JSON.parse
       (Resolve (mkReadable [bytes "data: {'x':2}"] None))
     = ([JSON.Object [(lit "x", JSON.Number 2 0)]], None)
  /\ OpenAIResponsesApiService.try_block JSON.parse
       (Resolve (mkReadable [bytes "data: {'x':2}"] None))
     = ([JSON.Object [(lit "x", JSON.Number 2 0)]], None).
Proof.
  split; [|split; reflexivity].
  intros JSON_parse cs text r d evs v W L F.
  unfold OpenAIApiService.try_block, OpenAIResponsesApiService.try_block.
  rewrite !read_stream_session, W. unfold session. simpl. rewrite L.
  rewrite final_core_on_line, final_responses_on_line, F. auto.
Qed.

(** One complete line, then [data: 7] cut in two chunks and never
    terminated. *)
Lemma unterminated_final_line_flushed_witness :
  let cs := [bytes "data: 1" ++ [x0a] ++ bytes "data"; bytes ": 7"] in
  StringDecoder.write StringDecoder.init (concat cs)
    = (lit "data: 1" ++ [NL] ++ lit "data: 7", StringDecoder.init)
  /\ OpenAIApiService.try_block JSON.parse (Resolve (mkReadable cs None))
     = ([JSON.Number 1 0] ++ [JSON.Number 7 0], None).
Proof.
  intros cs. split; [reflexivity|].
  apply (proj1 unterminated_final_line_flushed JSON.parse cs
           (lit "data: 1" ++ [NL] ++ lit "data: 7") (lit "data: 7")
           StringDecoder.init [JSON.Number 1 0] (JSON.Number 7 0));
    reflexivity.
Defined.

(** C9. A trimmed line [data: <t>] whose trimmed payload is not [[DONE]]
    and parses yields the parsed value as an event, whatever kind of JSON
    value it is; the loop then goes on with the rest of the buffer.  With
    the parser of module [JSON] the payloads [null], [42], [true] and a
    quoted string are emitted.  A trimmed line that starts with [data:]
    but not with [data: ] is dropped, whatever the parser would say about
    the rest. *)
Theorem any_json_value_emitted :
  (forall (JSON_parse : jsstring -> option JSON.value)
          (raw t rest : jsstring) (v : JSON.value),
      indexOf NL raw = None ->
      trim raw = lit "data: " ++ t ->
      JS.eqb (trim t) (lit "[DONE]") = false ->
      JSON_parse (trim t) = Some v ->
      on_line JSON_parse (trim raw) = Emit v
      /\ while_lines JSON_parse (raw ++ NL :: rest) =
         (v :: fst (while_lines JSON_parse rest),
          snd (while_lines JSON_parse rest)))
  /\ (forall (JSON_parse : jsstring -> option JSON.value)
             (raw t rest : jsstring),
         indexOf NL raw = None ->
         trim raw = lit "data:" ++ t ->
         startsWith [32] t = false ->
         on_line JSON_parse (trim raw) = Ignore
         /\ while_lines JSON_parse (raw ++ NL :: rest) =
            while_lines JSON_parse rest)
  /\ OpenAIApiService.try_block JSON.parse
       (Resolve (mkReadable
          [bytes "data: null" ++ [x0a] ++ bytes "data: 42" ++ [x0a]
           ++ bytes "data: true" ++ [x0a] ++ bytes "data: 'hi'" ++ [x0a]
           ++ bytes "data:{'a':1}" ++ [x0a]] None))
     = ([JSON.Null; JSON.Number 42 0; JSON.Bool true; JSON.String (lit "hi")],
        None).
Proof.
  split; [|split; [|reflexivity]].
  - intros JSON_parse raw t rest v Hnl Hraw Hdone Hparse.
    assert (L : on_line JSON_parse (trim raw) = Emit v).
    { unfold on_line. rewrite Hraw.
      change (startsWith (lit "data: ") (lit "data: " ++ t)) with true.
      change (substringFrom 6 (lit "data: " ++ t)) with t.
      cbv iota zeta. rewrite Hdone, Hparse. reflexivity. }
    split; [exact L|].
    rewrite while_lines_line, L by exact Hnl.
    destruct (while_lines JSON_parse rest). reflexivity.
  - intros JSON_parse raw t rest Hnl Hraw Hsp.
    assert (L : on_line JSON_parse (trim raw) = Ignore).
    { unfold on_line. rewrite Hraw.
      destruct t as [|c t']; [reflexivity|].
      change (startsWith [32] (c :: t')) with ((32 =? c) && true) in Hsp.
      change (startsWith (lit "data: ") (lit "data:" ++ c :: t'))
        with ((32 =? c) && true).
      rewrite Hsp. reflexivity. }
    split; [exact L|].
    rewrite while_lines_line, L by exact Hnl. reflexivity.
Qed.

(** The lines [  data: 42 ] (blanks around it) and [data:{"a":1}], each
    followed by [data: true]. *)
Lemma any_json_value_emitted_witness :
  (trim (lit "  data: 42 ") = lit "data: " ++ lit "42"
   /\ while_lines JSON.parse
        (lit "  data: 42 " ++ NL :: lit "data: true" ++ [NL])
      = ([JSON.Number 42 0; JSON.Bool true], Some []))
  /\ (trim (text "data:{'a':1}") = lit "data:" ++ text "{'a':1}"
      /\ while_lines JSON.parse
           (text "data:{'a':1}" ++ NL :: text "data: true" ++ [NL])
         = ([JSON.Bool true], Some [])).
Proof.
  split; (split; [reflexivity|]).
  - apply (proj1 any_json_value_emitted JSON.parse (lit "  data: 42 ")
             (lit "42") (lit "data: true" ++ [NL]) (JSON.Number 42 0));
      reflexivity.
  - replace (@nil JSON.value, @Some jsstring [])
      with (while_lines JSON.parse [] ) by reflexivity.
    replace ([JSON.Bool true], @Some jsstring [])
      with (while_lines JSON.parse (lit "data: true" ++ [NL])) by reflexivity.
    apply (proj1 (proj2 any_json_value_emitted) JSON.parse
             (text "data:{'a':1}") (text "{'a':1}")
             (lit "data: true" ++ [NL])); reflexivity.
Defined.

(** ** The [[DONE]] sentinel and malformed lines *)

Lemma prefix_of_app (a b c d : jsstring) :
  a ++ b = c ++ d -> (length a <= length c)%nat -> exists q, c = a ++ q.
Proof.
  intros E L. exists (firstn (length c - length a) b).
  assert (H : firstn (length c) (a ++ b) = c).
  { rewrite E, firstn_app, Nat.sub_diag, firstn_all. simpl. apply app_nil_r. }
  rewrite firstn_app, (firstn_all2 a) in H by exact L.
  symmetry. exact H.
Qed.

Section Sentinel.

Variable JSON_parse : jsstring -> option JSON.value.

Lemma on_line_done line :
  startsWith (lit "data: ") line = true ->
  JS.eqb (trim (substringFrom 6 line)) (lit "[DONE]") = true ->
  on_line JSON_parse line = Terminate.
Proof. intros H1 H2. unfold on_line. rewrite H1, H2. reflexivity. Qed.

Lemma on_line_malformed line :
  startsWith (lit "data: ") line = true ->
  JS.eqb (trim (substringFrom 6 line)) (lit "[DONE]") = false ->
  JSON_parse (trim (substringFrom 6 line)) = None ->
  on_line JSON_parse line = Ignore.
Proof. intros H1 H2 H3. unfold on_line. rewrite H1, H2, H3. reflexivity. Qed.

(** Complete lines [pre] without [[DONE]], then a line with a given action. *)
Lemma while_lines_after pre line post evs :
  while_lines JSON_parse pre = (evs, Some []) ->
  indexOf NL line = None ->
  while_lines JSON_parse (pre ++ line ++ NL :: post) =
  match on_line JSON_parse (trim line) with
  | Terminate => (evs, None)
  | Emit v => (evs ++ v :: fst (while_lines JSON_parse post),
               snd (while_lines JSON_parse post))
  | Ignore => (evs ++ fst (while_lines JSON_parse post),
               snd (while_lines JSON_parse post))
  end.
Proof.
  intros Hpre Hl. rewrite while_lines_app, Hpre. simpl.
  rewrite while_lines_line by exact Hl.
  destruct (on_line JSON_parse (trim line)).
  - rewrite app_nil_r. reflexivity.
  - destruct (while_lines JSON_parse post). reflexivity.
  - destruct (while_lines JSON_parse post). reflexivity.
Qed.

Lemma for_await_done cs1 c cs2 w1 d1 t d2 pre line post evs :
  StringDecoder.write StringDecoder.init (concat cs1) = (w1, d1) ->
  StringDecoder.write d1 c = (t, d2) ->
  w1 ++ t = pre ++ line ++ NL :: post ->
  (length w1 <= length (pre ++ line))%nat ->
  while_lines JSON_parse pre = (evs, Some []) ->
  indexOf NL line = None ->
  on_line JSON_parse (trim line) = Terminate ->
  for_await JSON_parse (cs1 ++ c :: cs2) [] StringDecoder.init
    = (evs, Returned cs2).
Proof.
  intros W1 Wc Htext Hlen Hpre Hl Hdone.
  assert (Hall : while_lines JSON_parse (w1 ++ t) = (evs, None)).
  { rewrite Htext, (while_lines_after _ _ _ _ Hpre Hl), Hdone. reflexivity. }
  assert (Hhead : while_lines JSON_parse (pre ++ line) = (evs, Some line)).
  { rewrite while_lines_app, Hpre. simpl.
    rewrite (while_lines_no_newline _ _ Hl), app_nil_r. reflexivity. }
  rewrite app_assoc in Htext.
  destruct (prefix_of_app _ _ _ _ Htext Hlen) as [q Hq].
  rewrite for_await_app.
  destruct (for_await JSON_parse cs1 [] StringDecoder.init) as [e1 x] eqn:F.
  apply for_await_spec in F; [|reflexivity]. rewrite W1 in F. simpl in F.
  destruct x as [r d'|u].
  - destruct F as [F ->]. simpl. rewrite Wc.
    rewrite while_lines_app, F in Hall.
    destruct (while_lines JSON_parse (r ++ t)) as [e2 o].
    inversion Hall; subst. reflexivity.
  - rewrite Hq, while_lines_app, F in Hhead. discriminate.
Qed.

End Sentinel.

(** C5. Let the decoder's text up to and including chunk [c] be
    [pre ++ line ++ NL :: post], where [pre] is made of complete lines that
    yield [evs] without a sentinel, [line] is a line whose trimmed
    [data: ] payload is [[DONE]], and the newline that ends [line] arrives
    with [c].  Then the chunk loop stops at [c]: it has yielded exactly
    [evs] (nothing for [line], nothing for [post]), the chunks [cs2] behind
    [c] are left unread, and in both services the [try] block ends there
    without the end-of-stream step and without meeting the error the source
    would have raised.  The same line met without its newline at the end of
    the stream yields nothing either. *)
Theorem done_terminates_session
    (JSON_parse : jsstring -> option JSON.value)
    (cs1 : list (list byte)) (c : list byte) (cs2 : list (list byte))
    (f : option Error) (w1 t pre line post : jsstring)
    (d1 d2 : StringDecoder.t) (evs : list JSON.value) :
  StringDecoder.write StringDecoder.init (concat cs1) = (w1, d1) ->
  StringDecoder.write d1 c = (t, d2) ->
  w1 ++ t = pre ++ line ++ NL :: post ->
  (length w1 <= length (pre ++ line))%nat ->
  while_lines JSON_parse pre = (evs, Some []) ->
  indexOf NL line = None ->
  startsWith (lit "data: ") (trim line) = true ->
  JS.eqb (trim (substringFrom 6 (trim line))) (lit "[DONE]") = true ->
  for_await JSON_parse (cs1 ++ c :: cs2) [] StringDecoder.init
    = (evs, Returned cs2)
  /\ OpenAIApiService.try_block JSON_parse
       (Resolve (mkReadable (cs1 ++ c :: cs2) f)) = (evs, None)
  /\ OpenAIResponsesApiService.try_block JSON_parse
       (Resolve (mkReadable (cs1 ++ c :: cs2) f)) = (evs, None)
  /\ OpenAIApiService.final JSON_parse line StringDecoder.init = []
  /\ OpenAIResponsesApiService.final JSON_parse line StringDecoder.init = [].
Proof.
  intros W1 Wc Htext Hlen Hpre Hl Hdata Hdone.
  assert (D : on_line JSON_parse (trim line) = Terminate)
    by (apply on_line_done; assumption).
  assert (F : for_await JSON_parse (cs1 ++ c :: cs2) [] StringDecoder.init
              = (evs, Returned cs2)).
  { eapply for_await_done; eauto. }
  split; [exact F|].
  unfold OpenAIApiService.try_block, OpenAIResponsesApiService.try_block,
    read_stream.
  simpl. rewrite F.
  rewrite final_core_on_line, final_responses_on_line. simpl.
  rewrite app_nil_r, D. auto.
Qed.

(** The spec's example with two more chunks queued behind the sentinel and a
    source that would fail at its end. *)
Lemma done_terminates_session_witness :
  let cs1 := [bytes "data: {'a':"; bytes "1}" ++ [x0a; x0a]] in
  let c := bytes "data: [DONE]" ++ [x0a] ++ bytes "data: 2" ++ [x0a] in
  let cs2 := [bytes "data: 3" ++ [x0a]; bytes "data: 4"] in
  let v := JSON.Object [(lit "a", JSON.Number 1 0)] in
  while_lines JSON.parse (text "data: {'a':1}" ++ [NL; NL]) = ([v], Some [])
  /\ for_await JSON.parse (cs1 ++ c :: cs2) [] StringDecoder.init
     = ([v], Returned cs2)
  /\ OpenAIApiService.try_block JSON.parse
       (Resolve (mkReadable (cs1 ++ c :: cs2)
                            (Some (mkError (Some 500) "reset"))))
     = ([v], None).
Proof.
  intros cs1 c cs2 v. split; [reflexivity|].
  pose proof (done_terminates_session JSON.parse cs1 c cs2
                (Some (mkError (Some 500) "reset"))
                (text "data: {'a':1}" ++ [NL; NL])
                (lit "data: [DONE]" ++ [NL] ++ lit "data: 2" ++ [NL])
                (text "data: {'a':1}" ++ [NL; NL])
                (lit "data: [DONE]") (lit "data: 2" ++ [NL])
                StringDecoder.init StringDecoder.init [v]) as H.
  destruct H as (H1 & H2 & _); try reflexivity.
  - vm_compute. lia.
  - exact (conj H1 H2).
Defined.

(** C6. Let the whole decoded text be [pre ++ line ++ NL :: post], where
    [pre] is made of complete lines that yield [evs] without a sentinel and
    [line] is a [data: ] line whose payload is not the sentinel and does not
    parse.  Then, in both services, the session yields [evs], nothing for
    [line], and then exactly what a session over [post] yields, ending the
    way that session ends: the malformed line raises nothing and hides no
    later line.  The same line met without its newline at the end of the
    stream yields nothing and raises nothing either. *)
Theorem malformed_json_line_skipped
    (JSON_parse : jsstring -> option JSON.value)
    (cs : list (list byte)) (f : option Error)
    (pre line post : jsstring) (d : StringDecoder.t)
    (evs : list JSON.value) :
  StringDecoder.write StringDecoder.init (concat cs)
    = (pre ++ line ++ NL :: post, d) ->
  while_lines JSON_parse pre = (evs, Some []) ->
  indexOf NL line = None ->
  startsWith (lit "data: ") (trim line) = true ->
  JS.eqb (trim (substringFrom 6 (trim line))) (lit "[DONE]") = false ->
  JSON_parse (trim (substringFrom 6 (trim line))) = None ->
  OpenAIApiService.try_block JSON_parse (Resolve (mkReadable cs f)) =
    (evs ++ fst (session JSON_parse (OpenAIApiService.final JSON_parse) f d post),
     snd (session JSON_parse (OpenAIApiService.final JSON_parse) f d post))
  /\ OpenAIResponsesApiService.try_block JSON_parse (Resolve (mkReadable cs f)) =
    (evs ++ fst (session JSON_parse (OpenAIResponsesApiService.final JSON_parse)
                   f d post),
     snd (session JSON_parse (OpenAIResponsesApiService.final JSON_parse)
            f d post))
  /\ OpenAIApiService.final JSON_parse line StringDecoder.init = []
  /\ OpenAIResponsesApiService.final JSON_parse line StringDecoder.init = [].
Proof.
  intros W Hpre Hl Hdata Hdone Hparse.
  pose proof (on_line_malformed _ _ Hdata Hdone Hparse) as M.
  unfold OpenAIApiService.try_block, OpenAIResponsesApiService.try_block.
  rewrite !read_stream_session, W. unfold session. simpl.
  rewrite (while_lines_after _ _ _ _ _ Hpre Hl), M.
  rewrite !final_core_on_line, !final_responses_on_line. simpl.
  rewrite app_nil_r, M.
  destruct (while_lines JSON_parse post) as [e [r|]]; simpl.
  - destruct f; simpl; rewrite ?app_assoc; auto.
  - auto.
Qed.

(** A good line, a line with a broken object, two more good lines, the last
    one unterminated. *)
Lemma malformed_json_line_skipped_witness :
  let cs := [bytes "data: 1" ++ [x0a] ++ bytes "data: {'a':";
             [x0a] ++ bytes "data: 2" ++ [x0a] ++ bytes "data: 3"] in
  JSON.parse (text "{'a':") = None
  /\ OpenAIApiService.try_block JSON.parse (Resolve (mkReadable cs None))
     = ([JSON.Number 1 0; JSON.Number 2 0; JSON.Number 3 0], None).
Proof.
  intros cs. split; [reflexivity|].
  apply (proj1 (malformed_json_line_skipped JSON.parse cs None
                  (text "data: 1" ++ [NL]) (text "data: {'a':")
                  (lit "data: 2" ++ [NL] ++ lit "data: 3")
                  StringDecoder.init [JSON.Number 1 0]
                  eq_refl eq_refl eq_refl eq_refl eq_refl eq_refl)).
Defined.

(** ** The retry loops, unfolded once *)

Section Unfold.

Variable T : Type.
Variable post : T -> string -> Body -> Outcome JSON.value * T.
Variable JSON_parse : jsstring -> option JSON.value.
Variable post_stream : T -> string -> Body -> Outcome Readable * T.

Lemma core_callApi_eq this endpoint body isRetry retryCount net :
  OpenAIApiService.callApi this post endpoint body isRetry retryCount net =
  match post net endpoint body with
  | (Resolve data, net') => (Return data, net', [Post endpoint body])
  | (Reject error, net') =>
    if is_auth (status error) then (Throw error, net', [Post endpoint body])
    else if retries (status error) retryCount (OpenAIApiService.maxRetries this)
    then
      let '(r, net'', obs) :=
        OpenAIApiService.callApi this post endpoint body isRetry
          (S retryCount) net' in
      (r, net'',
       Post endpoint body
         :: Sleep (mul (OpenAIApiService.baseDelay this) (pow2 retryCount))
         :: obs)
    else (Throw error, net', [Post endpoint body])
  end.
Proof.
  unfold retries. simp callApi.
  destruct (post net endpoint body) as [[data|error] net']; simp callApi;
    [reflexivity|].
  destruct (is_auth (status error)); simp callApi; [reflexivity|].
  destruct (inspect (is_429 _ && _)) as [[] H]; simp callApi; on_rhs H;
    [reflexivity|].
  destruct (inspect (is_5xx _ && _)) as [[] H']; simp callApi; on_rhs H';
    reflexivity.
Qed.

Lemma responses_callApi_eq this endpoint body isRetry retryCount net :
  OpenAIResponsesApiService.callApi this post endpoint body isRetry
    retryCount net =
  match post net endpoint body with
  | (Resolve data, net') => (Return data, net', [Post endpoint body])
  | (Reject error, net') =>
    if is_auth (status error) then (Throw error, net', [Post endpoint body])
    else if retries (status error) retryCount
              (OpenAIResponsesApiService.maxRetries this)
    then
      let '(r, net'', obs) :=
        OpenAIResponsesApiService.callApi this post endpoint body isRetry
          (S retryCount) net' in
      (r, net'',
       Post endpoint body
         :: Sleep (mul (OpenAIResponsesApiService.baseDelay this)
                       (pow2 retryCount))
         :: obs)
    else (Throw error, net', [Post endpoint body])
  end.
Proof.
  unfold retries. simp callApi.
  destruct (post net endpoint body) as [[data|error] net']; simp callApi;
    [reflexivity|].
  destruct (is_auth (status error)); simp callApi; [reflexivity|].
  destruct (inspect (is_429 _ && _)) as [[] H]; simp callApi; on_rhs H;
    [reflexivity|].
  destruct (inspect (is_5xx _ && _)) as [[] H']; simp callApi; on_rhs H';
    reflexivity.
Qed.

Lemma core_streamApi_eq this endpoint body isRetry retryCount net :
  OpenAIApiService.streamApi this JSON_parse post_stream endpoint body isRetry
    retryCount net =
  let wire := OpenAIApiService.streamRequestBody body in
  let '(response, net') := post_stream net endpoint wire in
  match OpenAIApiService.try_block JSON_parse response with
  | (evs, None) => (Return tt, net', Post endpoint wire :: map Yield evs)
  | (evs, Some error) =>
    if is_auth (status error)
    then (Throw error, net', Post endpoint wire :: map Yield evs)
    else if retries (status error) retryCount (OpenAIApiService.maxRetries this)
    then
      let '(r, net'', obs) :=
        OpenAIApiService.streamApi this JSON_parse post_stream endpoint body
          isRetry (S retryCount) net' in
      (r, net'',
       Post endpoint wire
         :: map Yield evs
            ++ Sleep (mul (OpenAIApiService.baseDelay this) (pow2 retryCount))
            :: obs)
    else (Throw error, net', Post endpoint wire :: map Yield evs)
  end.
Proof.
  unfold retries. simp streamApi. cbv zeta.
  destruct (post_stream net endpoint _) as [response net']; simp streamApi.
  destruct (OpenAIApiService.try_block JSON_parse response) as [evs [error|]];
    simp streamApi; [|reflexivity].
  destruct (is_auth (status error)); simp streamApi; [reflexivity|].
  destruct (inspect (is_429 _ && _)) as [[] H]; simp streamApi; on_rhs H;
    [reflexivity|].
  destruct (inspect (is_5xx _ && _)) as [[] H']; simp streamApi; on_rhs H';
    reflexivity.
Qed.

Lemma responses_streamApi_eq this endpoint body isRetry retryCount net :
  OpenAIResponsesApiService.streamApi this JSON_parse post_stream endpoint body
    isRetry retryCount net =
  let wire := OpenAIResponsesApiService.streamRequestBody body in
  let '(response, net') := post_stream net endpoint wire in
  match OpenAIResponsesApiService.try_block JSON_parse response with
  | (evs, None) => (Return tt, net', Post endpoint wire :: map Yield evs)
  | (evs, Some error) =>
    if is_auth (status error)
    then (Throw error, net', Post endpoint wire :: map Yield evs)
    else if retries (status error) retryCount
              (OpenAIResponsesApiService.maxRetries this)
    then
      let '(r, net'', obs) :=
        OpenAIResponsesApiService.streamApi this JSON_parse post_stream
          endpoint body isRetry (S retryCount) net' in
      (r, net'',
       Post endpoint wire
         :: map Yield evs
            ++ Sleep (mul (OpenAIResponsesApiService.baseDelay this)
                          (pow2 retryCount))
            :: obs)
    else (Throw error, net', Post endpoint wire :: map Yield evs)
  end.
Proof.
  unfold retries. simp streamApi. cbv zeta.
  destruct (post_stream net endpoint _) as [response net']; simp streamApi.
  destruct (OpenAIResponsesApiService.try_block JSON_parse response)
    as [evs [error|]]; simp streamApi; [|reflexivity].
  destruct (is_auth (status error)); simp streamApi; [reflexivity|].
  destruct (inspect (is_429 _ && _)) as [[] H]; simp streamApi; on_rhs H;
    [reflexivity|].
  destruct (inspect (is_5xx _ && _)) as [[] H']; simp streamApi; on_rhs H';
    reflexivity.
Qed.

End Unfold.

(** ** Retry policy *)

Lemma retries_lessThan st retryCount maxRetries :
  retries st retryCount maxRetries = true ->
  lessThan (Z.of_nat retryCount) maxRetries = true.
Proof.
  unfold retries. intros H. apply orb_prop in H.
  destruct H as [H|H]; apply andb_prop in H; tauto.
Qed.

Lemma is_auth_401_403 st :
  st = Some 401 \/ st = Some 403 -> is_auth st = true.
Proof. intros [-> | ->]; reflexivity. Qed.

Lemma retries_429 retryCount m :
  Z.of_nat retryCount < m -> retries (Some 429) retryCount (num m) = true.
Proof.
  intros H. unfold retries. simpl. apply Z.ltb_lt in H. rewrite H. reflexivity.
Qed.

Lemma retries_undefined st retryCount : retries st retryCount undefined = false.
Proof. unfold retries. simpl. rewrite !andb_false_r. reflexivity. Qed.

Lemma core_new_config cfg s :
  OpenAIApiService.new cfg = inr s -> OpenAIApiService.config s = cfg.
Proof.
  unfold OpenAIApiService.new.
  destruct (OPENAI_API_KEY cfg) as [[|a k]|]; intros H; inversion H.
  reflexivity.
Qed.

Lemma responses_new_config cfg s :
  OpenAIResponsesApiService.new cfg = inr s ->
  OpenAIResponsesApiService.config s = cfg.
Proof.
  unfold OpenAIResponsesApiService.new.
  destruct (OPENAI_API_KEY cfg) as [[|a k]|]; intros H; inversion H.
  reflexivity.
Qed.

(** C4. When the transport rejects a request with status 401 or 403, both
    [callApi] and [streamApi], in both services, whatever the configuration
    and the retry count, make that one request, wait for nothing and throw
    the same error. *)
Theorem auth_failure_not_retried
    (T : Type)
    (post : T -> string -> Body -> Outcome JSON.value * T)
    (JSON_parse : jsstring -> option JSON.value)
    (post_stream : T -> string -> Body -> Outcome Readable * T)
    (s1 : OpenAIApiService.t) (s2 : OpenAIResponsesApiService.t)
    (endpoint : string) (body : Body) (isRetry : bool) (retryCount : nat)
    (net net' : T) (error : Error) :
  status error = Some 401 \/ status error = Some 403 ->
  (post net endpoint body = (Reject error, net') ->
   OpenAIApiService.callApi s1 post endpoint body isRetry retryCount net
     = (Throw error, net', [Post endpoint body])
   /\ OpenAIResponsesApiService.callApi s2 post endpoint body isRetry
        retryCount net
      = (Throw error, net', [Post endpoint body]))
  /\ (post_stream net endpoint
        (set_property (lit "stream") (JSON.Bool true) body)
      = (Reject error, net') ->
      OpenAIApiService.streamApi s1 JSON_parse post_stream endpoint body
        isRetry retryCount net
      = (Throw error, net',
         [Post endpoint (set_property (lit "stream") (JSON.Bool true) body)])
      /\ OpenAIResponsesApiService.streamApi s2 JSON_parse post_stream
           endpoint body isRetry retryCount net
         = (Throw error, net',
            [Post endpoint
               (set_property (lit "stream") (JSON.Bool true) body)])).
Proof.
  intros Hst. apply is_auth_401_403 in Hst.
  split; intros Hp.
  - rewrite core_callApi_eq, responses_callApi_eq, Hp, Hst. auto.
  - rewrite core_streamApi_eq, responses_streamApi_eq.
    unfold OpenAIApiService.streamRequestBody,
      OpenAIResponsesApiService.streamRequestBody.
    cbv zeta. rewrite Hp. simpl. rewrite Hst. auto.
Qed.

(** A transport that always answers 401, met at retry count 0 with three
    retries allowed. *)
Lemma auth_failure_not_retried_witness :
  let cfg := mkConfig (Some "sk-test"%string) None None (num 3) (num 1000) in
  let s1 := OpenAIApiService.mk cfg "sk-test" None false in
  let e := mkError (Some 401) "Unauthorized" in
  OpenAIApiService.callApi s1 (scripted (fun _ => Reject e))
    "/chat/completions" [] false 0 0%nat
  = (Throw e, 1%nat, [Post "/chat/completions" []])
  /\ OpenAIApiService.streamApi s1 JSON.parse (scripted (fun _ => Reject e))
       "/chat/completions" [] false 0 0%nat
     = (Throw e, 1%nat,
        [Post "/chat/completions" [(lit "stream", JSON.Bool true)]]).
Proof.
  intros cfg s1 e.
  pose proof (auth_failure_not_retried nat
                (scripted (fun _ => Reject e)) JSON.parse
                (scripted (fun _ => Reject e)) s1
                (OpenAIResponsesApiService.mk cfg "sk-test" None false)
                "/chat/completions" [] false 0 0%nat 1%nat e
                (or_introl eq_refl)) as [H1 H2].
  split.
  - exact (proj1 (H1 eq_refl)).
  - exact (proj1 (H2 eq_refl)).
Defined.

(** C3. With [maxRetries = 3] and base delay [b] configured, a transport
    that answers 429 twice and then succeeds makes [callApi] send three
    requests, wait [b] before the second and [2 * b] before the third, and
    return the body of the third answer.  In general a 429 met at retry
    count [n] below the maximum is followed by a wait of [b * 2 ^ n], no
    more and no less, and by the call at retry count [n + 1]. *)
Theorem two_rejections_then_success
    (T : Type) (post : T -> string -> Body -> Outcome JSON.value * T)
    (this : OpenAIApiService.t) (endpoint : string) (body : Body)
    (isRetry : bool) (b : Z) :
  REQUEST_BASE_DELAY (OpenAIApiService.config this) = num b ->
  (forall (n0 n1 n2 n3 : T) (e1 e2 : Error) (data : JSON.value),
      REQUEST_MAX_RETRIES (OpenAIApiService.config this) = num 3 ->
      post n0 endpoint body = (Reject e1, n1) -> status e1 = Some 429 ->
      post n1 endpoint body = (Reject e2, n2) -> status e2 = Some 429 ->
      post n2 endpoint body = (Resolve data, n3) ->
      OpenAIApiService.callApi this post endpoint body isRetry 0 n0
      = (Return data, n3,
         [Post endpoint body; Sleep (num b);
          Post endpoint body; Sleep (num (2 * b));
          Post endpoint body]))
  /\ (forall (m : Z) (retryCount : nat) (net net' : T) (e : Error),
         REQUEST_MAX_RETRIES (OpenAIApiService.config this) = num m ->
         post net endpoint body = (Reject e, net') -> status e = Some 429 ->
         Z.of_nat retryCount < m ->
         OpenAIApiService.callApi this post endpoint body isRetry
           retryCount net
         = let '(r, net'', obs) :=
             OpenAIApiService.callApi this post endpoint body isRetry
               (S retryCount) net' in
           (r, net'',
            Post endpoint body
              :: Sleep (num (b * 2 ^ Z.of_nat retryCount)) :: obs)).
Proof.
  intros Hb.
  assert (G : forall (m : Z) (retryCount : nat) (net net' : T) (e : Error),
             REQUEST_MAX_RETRIES (OpenAIApiService.config this) = num m ->
             post net endpoint body = (Reject e, net') -> status e = Some 429 ->
             Z.of_nat retryCount < m ->
             OpenAIApiService.callApi this post endpoint body isRetry
               retryCount net
             = let '(r, net'', obs) :=
                 OpenAIApiService.callApi this post endpoint body isRetry
                   (S retryCount) net' in
               (r, net'',
                Post endpoint body
                  :: Sleep (num (b * 2 ^ Z.of_nat retryCount)) :: obs)).
  { intros m rc net net' e Hm Hp Hs Hlt.
    rewrite core_callApi_eq, Hp, Hs.
    unfold OpenAIApiService.maxRetries, OpenAIApiService.baseDelay.
    rewrite Hm, Hb, (retries_429 _ _ Hlt). reflexivity. }
  split; [|exact G].
  intros n0 n1 n2 n3 e1 e2 data Hm P0 S0 P1 S1 P2.
  rewrite (G 3 0%nat n0 n1 e1 Hm P0 S0) by lia.
  rewrite (G 3 1%nat n1 n2 e2 Hm P1 S1) by lia.
  rewrite core_callApi_eq, P2.
  change (b * 2 ^ Z.of_nat 0) with (b * 1).
  change (b * 2 ^ Z.of_nat 1) with (b * 2).
  rewrite Z.mul_1_r, (Z.mul_comm b 2). reflexivity.
Qed.

(** Base delay 250 ms against the scripted transport 429, 429, success. *)
Lemma two_rejections_then_success_witness :
  let cfg := mkConfig (Some "sk-test"%string) None None (num 3) (num 250) in
  let this := OpenAIApiService.mk cfg "sk-test" None false in
  let e := mkError (Some 429) "Too Many Requests" in
  let ok := JSON.Object [(lit "id", JSON.Number 7 0)] in
  let post := scripted (fun k => if (k <? 2)%nat then Reject e else Resolve ok) in
  OpenAIApiService.callApi this post "/chat/completions" [] false 0 0%nat
  = (Return ok, 3%nat,
     [Post "/chat/completions" []; Sleep (num 250);
      Post "/chat/completions" []; Sleep (num (2 * 250));
      Post "/chat/completions" []]).
Proof.
  intros cfg this e ok post.
  apply (proj1 (two_rejections_then_success nat post this
                  "/chat/completions" [] false 250 eq_refl)
           0%nat 1%nat 2%nat 3%nat e e ok); reflexivity.
Defined.

(** ** The payload across retries *)

Lemma eqb_eq (a b : jsstring) : JS.eqb a b = true <-> a = b.
Proof.
  revert b. induction a as [|x a IH]; intros [|y b]; simpl;
    try (split; [discriminate | intros H; inversion H]); [tauto|].
  rewrite andb_true_iff, Z.eqb_eq, IH.
  split; [intros [-> ->]; reflexivity | intros H; inversion H; auto].
Qed.

Lemma get_set_same k v o : get_property k (set_property k v o) = Some v.
Proof.
  assert (R : JS.eqb k k = true) by (apply eqb_eq; reflexivity).
  induction o as [|[k' v'] r IH]; simpl.
  - rewrite R. reflexivity.
  - destruct (JS.eqb k' k) eqn:E; simpl; rewrite E; [reflexivity | exact IH].
Qed.

Lemma get_set_other k k' v o :
  k' <> k -> get_property k' (set_property k v o) = get_property k' o.
Proof.
  intros N.
  assert (F : JS.eqb k k' = false).
  { destruct (JS.eqb k k') eqn:E; [|reflexivity].
    apply eqb_eq in E. congruence. }
  induction o as [|[k0 v0] r IH]; simpl.
  - rewrite F. reflexivity.
  - destruct (JS.eqb k0 k) eqn:E; simpl.
    + apply eqb_eq in E. subst k0. rewrite F. reflexivity.
    + rewrite IH. reflexivity.
Qed.

Lemma posts_yields evs rest : posts (map Yield evs ++ rest) = posts rest.
Proof. induction evs as [|v evs IH]; simpl; [reflexivity | exact IH]. Qed.

Lemma posts_only_yields evs : posts (map Yield evs) = [].
Proof.
  rewrite <- (app_nil_r (map Yield evs)). apply posts_yields.
Qed.

Section Payload.

Variable T : Type.
Variable post : T -> string -> Body -> Outcome JSON.value * T.
Variable JSON_parse : jsstring -> option JSON.value.
Variable post_stream : T -> string -> Body -> Outcome Readable * T.
Variables (endpoint : string) (body : Body) (isRetry : bool).

Lemma sends_only_retry p delay obs :
  sends_only p obs -> sends_only p (p :: Sleep delay :: obs).
Proof.
  intros [H _]. split; [|reflexivity].
  unfold posts. simpl. destruct p; simpl; try (constructor; auto); exact H.
Qed.

Lemma sends_only_stream_retry ep w evs delay obs :
  sends_only (Post ep w) obs ->
  sends_only (Post ep w) (Post ep w :: map Yield evs ++ Sleep delay :: obs).
Proof.
  intros [H _]. split; [|reflexivity].
  unfold posts. simpl. constructor; [reflexivity|].
  fold (posts (map Yield evs ++ Sleep delay :: obs)).
  rewrite posts_yields. exact H.
Qed.

Lemma sends_only_stream_end ep w evs :
  sends_only (Post ep w) (Post ep w :: map Yield evs).
Proof.
  split; [|reflexivity]. unfold posts. simpl. constructor; [reflexivity|].
  fold (posts (map Yield evs)). rewrite posts_only_yields. constructor.
Qed.

Lemma sends_only_once p : is_post p = true -> sends_only p [p].
Proof.
  intros H. split; [|reflexivity]. unfold posts. simpl. rewrite H.
  constructor; auto.
Qed.

Ltac by_budget maxRetries retryCount net :=
  let n := fresh "n" in
  let Hn := fresh "Hn" in
  remember (budget maxRetries retryCount) as n eqn:Hn;
  revert retryCount net Hn;
  induction n as [n IH] using lt_wf_ind; intros retryCount net Hn.

Ltac retry_step IH Hn R net' :=
  apply retries_lessThan in R; apply budget_decreases in R;
  rewrite <- Hn in R; specialize (IH _ R _ net' eq_refl).

Lemma core_callApi_sends this retryCount net :
  sends_only (Post endpoint body)
    (snd (OpenAIApiService.callApi this post endpoint body isRetry
            retryCount net)).
Proof.
  by_budget (OpenAIApiService.maxRetries this) retryCount net.
  rewrite core_callApi_eq.
  destruct (post net endpoint body) as [[data|error] net'];
    [apply sends_only_once; reflexivity|].
  destruct (is_auth (status error)); [apply sends_only_once; reflexivity|].
  destruct (retries _ _ _) eqn:R; [|apply sends_only_once; reflexivity].
  retry_step IH Hn R net'.
  destruct (OpenAIApiService.callApi _ _ _ _ _ _ _) as [[r n''] obs].
  apply sends_only_retry. exact IH.
Qed.

Lemma responses_callApi_sends this retryCount net :
  sends_only (Post endpoint body)
    (snd (OpenAIResponsesApiService.callApi this post endpoint body isRetry
            retryCount net)).
Proof.
  by_budget (OpenAIResponsesApiService.maxRetries this) retryCount net.
  rewrite responses_callApi_eq.
  destruct (post net endpoint body) as [[data|error] net'];
    [apply sends_only_once; reflexivity|].
  destruct (is_auth (status error)); [apply sends_only_once; reflexivity|].
  destruct (retries _ _ _) eqn:R; [|apply sends_only_once; reflexivity].
  retry_step IH Hn R net'.
  destruct (OpenAIResponsesApiService.callApi _ _ _ _ _ _ _) as [[r n''] obs].
  apply sends_only_retry. exact IH.
Qed.

Lemma core_streamApi_sends this retryCount net :
  sends_only
    (Post endpoint (set_property (lit "stream") (JSON.Bool true) body))
    (snd (OpenAIApiService.streamApi this JSON_parse post_stream endpoint body
            isRetry retryCount net)).
Proof.
  by_budget (OpenAIApiService.maxRetries this) retryCount net.
  rewrite core_streamApi_eq. cbv zeta.
  unfold OpenAIApiService.streamRequestBody.
  destruct (post_stream net endpoint _) as [response net'].
  destruct (OpenAIApiService.try_block JSON_parse response) as [evs [error|]];
    [|apply sends_only_stream_end].
  destruct (is_auth (status error)); [apply sends_only_stream_end|].
  destruct (retries _ _ _) eqn:R; [|apply sends_only_stream_end].
  retry_step IH Hn R net'.
  destruct (OpenAIApiService.streamApi _ _ _ _ _ _ _ _) as [[r n''] obs].
  apply sends_only_stream_retry. exact IH.
Qed.

Lemma responses_streamApi_sends this retryCount net :
  sends_only
    (Post endpoint (set_property (lit "stream") (JSON.Bool true) body))
    (snd (OpenAIResponsesApiService.streamApi this JSON_parse post_stream
            endpoint body isRetry retryCount net)).
Proof.
  by_budget (OpenAIResponsesApiService.maxRetries this) retryCount net.
  rewrite responses_streamApi_eq. cbv zeta.
  unfold OpenAIResponsesApiService.streamRequestBody.
  destruct (post_stream net endpoint _) as [response net'].
  destruct (OpenAIResponsesApiService.try_block JSON_parse response)
    as [evs [error|]]; [|apply sends_only_stream_end].
  destruct (is_auth (status error)); [apply sends_only_stream_end|].
  destruct (retries _ _ _) eqn:R; [|apply sends_only_stream_end].
  retry_step IH Hn R net'.
  destruct (OpenAIResponsesApiService.streamApi _ _ _ _ _ _ _ _)
    as [[r n''] obs].
  apply sends_only_stream_retry. exact IH.
Qed.

End Payload.

(** C8. Whatever the transport answers and however many retries follow,
    every request [callApi] sends carries the caller's body unchanged and
    every request [streamApi] sends carries the wire body
    [{ ...body, stream: true }], built from the caller's body each time; at
    least one request is sent.  The wire body has [stream] set to [true]
    and agrees with the caller's body on every other property.  This holds
    in both services. *)
Theorem retries_resend_payload
    (T : Type)
    (post : T -> string -> Body -> Outcome JSON.value * T)
    (JSON_parse : jsstring -> option JSON.value)
    (post_stream : T -> string -> Body -> Outcome Readable * T)
    (s1 : OpenAIApiService.t) (s2 : OpenAIResponsesApiService.t)
    (endpoint : string) (body : Body) (isRetry : bool) (retryCount : nat)
    (net : T) :
  let wire := set_property (lit "stream") (JSON.Bool true) body in
  sends_only (Post endpoint body)
    (snd (OpenAIApiService.callApi s1 post endpoint body isRetry
            retryCount net))
  /\ sends_only (Post endpoint body)
       (snd (OpenAIResponsesApiService.callApi s2 post endpoint body isRetry
               retryCount net))
  /\ sends_only (Post endpoint wire)
       (snd (OpenAIApiService.streamApi s1 JSON_parse post_stream endpoint
               body isRetry retryCount net))
  /\ sends_only (Post endpoint wire)
       (snd (OpenAIResponsesApiService.streamApi s2 JSON_parse post_stream
               endpoint body isRetry retryCount net))
  /\ OpenAIApiService.streamRequestBody body = wire
  /\ OpenAIResponsesApiService.streamRequestBody body = wire
  /\ get_property (lit "stream") wire = Some (JSON.Bool true)
  /\ (forall k : jsstring,
         k <> lit "stream" -> get_property k wire = get_property k body).
Proof.
  intros wire. repeat split.
  - apply core_callApi_sends.
  - apply core_callApi_sends.
  - apply responses_callApi_sends.
  - apply responses_callApi_sends.
  - apply core_streamApi_sends.
  - apply core_streamApi_sends.
  - apply responses_streamApi_sends.
  - apply responses_streamApi_sends.
  - apply get_set_same.
  - intros k Hk. apply get_set_other. exact Hk.
Qed.

(** A body that already says [stream: false], sent through two 503 answers
    before the stream opens. *)
Lemma retries_resend_payload_witness :
  let cfg := mkConfig (Some "sk-test"%string) None None (num 3) (num 100) in
  let s1 := OpenAIApiService.mk cfg "sk-test" None false in
  let s2 := OpenAIResponsesApiService.mk cfg "sk-test" None false in
  let body := [(lit "stream", JSON.Bool false);
               (lit "model", JSON.String (lit "gpt"))] in
  let wire := [(lit "stream", JSON.Bool true);
               (lit "model", JSON.String (lit "gpt"))] in
  let e := mkError (Some 503) "Service Unavailable" in
  let post_stream :=
    scripted (fun k => if (k <? 2)%nat then Reject e
                       else Resolve (mkReadable [bytes "data: 1"] None)) in
  snd (OpenAIApiService.streamApi s1 JSON.parse post_stream "/chat/completions"
         body false 0 0%nat)
  = [Post "/chat/completions" wire; Sleep (num 100);
     Post "/chat/completions" wire; Sleep (num 200);
     Post "/chat/completions" wire; Yield (JSON.Number 1 0)]
  /\ sends_only (Post "/chat/completions" wire)
       (snd (OpenAIApiService.streamApi s1 JSON.parse post_stream
               "/chat/completions" body false 0 0%nat))
  /\ get_property (lit "model") wire = get_property (lit "model") body.
Proof.
  intros cfg s1 s2 body wire e post_stream.
  pose proof (retries_resend_payload nat
                (scripted (fun _ => Reject e)) JSON.parse post_stream s1 s2
                "/chat/completions" body false 0 0%nat)
    as (_ & _ & H & _ & _ & _ & _ & G).
  split; [reflexivity|]. split; [exact H|].
  apply (G (lit "model")). discriminate.
Defined.

(** ** The retry settings *)

(** What [OpenAIResponsesApiService] does with unset retry settings:
    three retries, one second of base delay. *)
Lemma responses_defaults this :
  REQUEST_MAX_RETRIES (OpenAIResponsesApiService.config this) = undefined ->
  REQUEST_BASE_DELAY (OpenAIResponsesApiService.config this) = undefined ->
  OpenAIResponsesApiService.maxRetries this = num 3
  /\ OpenAIResponsesApiService.baseDelay this = num 1000.
Proof.
  unfold OpenAIResponsesApiService.maxRetries,
    OpenAIResponsesApiService.baseDelay.
  intros -> ->. split; reflexivity.
Qed.

(** With both settings unset, [OpenAIResponsesApiService] answers a 429 or
    5xx met at a retry count below 3 by a wait of [1000 * 2 ^ retryCount]
    milliseconds, a positive delay, and the call at the next retry count. *)
Lemma responses_unset_retries
    (T : Type) (post : T -> string -> Body -> Outcome JSON.value * T)
    (this : OpenAIResponsesApiService.t) (endpoint : string) (body : Body)
    (isRetry : bool) (retryCount : nat) (net net' : T) (error : Error) :
  REQUEST_MAX_RETRIES (OpenAIResponsesApiService.config this) = undefined ->
  REQUEST_BASE_DELAY (OpenAIResponsesApiService.config this) = undefined ->
  post net endpoint body = (Reject error, net') ->
  (is_429 (status error) || is_5xx (status error)) = true ->
  (retryCount < 3)%nat ->
  0 < 1000 * 2 ^ Z.of_nat retryCount
  /\ OpenAIResponsesApiService.callApi this post endpoint body isRetry
       retryCount net
     = let '(r, net'', obs) :=
         OpenAIResponsesApiService.callApi this post endpoint body isRetry
           (S retryCount) net' in
       (r, net'',
        Post endpoint body
          :: Sleep (num (1000 * 2 ^ Z.of_nat retryCount)) :: obs).
Proof.
  intros Hm Hb Hp Hs Hlt. split; [lia|].
  destruct (responses_defaults this Hm Hb) as [Em Eb].
  rewrite responses_callApi_eq, Hp, Em, Eb.
  assert (A : is_auth (status error) = false).
  { destruct (status error) as [st|]; [|reflexivity]. simpl in *.
    destruct (st =? 429) eqn:E1.
    - apply Z.eqb_eq in E1. subst. reflexivity.
    - simpl in Hs. apply andb_prop in Hs. destruct Hs as [H1 H2].
      apply Z.leb_le in H1.
      destruct (st =? 401) eqn:E2; [apply Z.eqb_eq in E2; lia|].
      destruct (st =? 403) eqn:E3; [apply Z.eqb_eq in E3; lia|].
      reflexivity. }
  assert (R : retries (status error) retryCount (num 3) = true).
  { unfold retries. simpl.
    assert (L : (Z.of_nat retryCount <? 3) = true) by (apply Z.ltb_lt; lia).
    rewrite L, !andb_true_r. exact Hs. }
  rewrite A, R. reflexivity.
Qed.

(** What [OpenAIApiService] does with an unset maximum: a rejected request
    is never retried, whatever its status. *)
Lemma core_unset_never_retries
    (T : Type) (post : T -> string -> Body -> Outcome JSON.value * T)
    (JSON_parse : jsstring -> option JSON.value)
    (post_stream : T -> string -> Body -> Outcome Readable * T)
    (this : OpenAIApiService.t) (endpoint : string) (body : Body)
    (isRetry : bool) (retryCount : nat) (net net' : T) (error : Error) :
  REQUEST_MAX_RETRIES (OpenAIApiService.config this) = undefined ->
  (post net endpoint body = (Reject error, net') ->
   OpenAIApiService.callApi this post endpoint body isRetry retryCount net
   = (Throw error, net', [Post endpoint body]))
  /\ (post_stream net endpoint (OpenAIApiService.streamRequestBody body)
      = (Reject error, net') ->
      OpenAIApiService.streamApi this JSON_parse post_stream endpoint body
        isRetry retryCount net
      = (Throw error, net',
         [Post endpoint (OpenAIApiService.streamRequestBody body)])).
Proof.
  intros Hm. split; intros Hp.
  - rewrite core_callApi_eq, Hp. unfold OpenAIApiService.maxRetries.
    rewrite Hm, retries_undefined. destruct (is_auth _); reflexivity.
  - rewrite core_streamApi_eq. cbv zeta. rewrite Hp. simpl.
    unfold OpenAIApiService.maxRetries.
    rewrite Hm, retries_undefined. destruct (is_auth _); reflexivity.
Qed.

(** C1. A configuration that holds an API key and leaves both retry
    settings unset, against a transport that answers 429 once and then
    succeeds.  [OpenAIResponsesApiService] waits 1000 ms, retries and
    succeeds, in [callApi] and in [streamApi]; [OpenAIApiService] throws
    the 429 after its first request in both, without a wait. *)
Theorem unset_retry_settings_one_rejection :
  let cfg := mkConfig (Some "sk-test"%string) None None undefined undefined in
  let e := mkError (Some 429) "Too Many Requests" in
  let ok := JSON.Object [(lit "id", JSON.Number 7 0)] in
  let post := scripted (fun k => match k with
                                 | O => Reject e
                                 | S _ => Resolve ok
                                 end) in
  let post_stream :=
    scripted (fun k => match k with
                       | O => Reject e
                       | S _ => Resolve (mkReadable
                                           [bytes "data: 1" ++ [x0a]] None)
                       end) in
  let wire := [(lit "stream", JSON.Bool true)] in
  exists s1 s2,
    OpenAIApiService.new cfg = inr s1
    /\ OpenAIResponsesApiService.new cfg = inr s2
    /\ OpenAIResponsesApiService.callApi s2 post "/responses" [] false 0 0%nat
       = (Return ok, 2%nat,
          [Post "/responses" []; Sleep (num 1000); Post "/responses" []])
    /\ OpenAIResponsesApiService.streamApi s2 JSON.parse post_stream
         "/responses" [] false 0 0%nat
       = (Return tt, 2%nat,
          [Post "/responses" wire; Sleep (num 1000); Post "/responses" wire;
           Yield (JSON.Number 1 0)])
    /\ OpenAIApiService.callApi s1 post "/chat/completions" [] false 0 0%nat
       = (Throw e, 1%nat, [Post "/chat/completions" []])
    /\ OpenAIApiService.streamApi s1 JSON.parse post_stream
         "/chat/completions" [] false 0 0%nat
       = (Throw e, 1%nat, [Post "/chat/completions" wire]).
Proof.
  intros cfg e ok post post_stream wire.
  eexists. eexists. repeat split; reflexivity.
Qed.

(** ** The two services side by side *)

Lemma read_stream_ext JSON_parse final1 final2 stream :
  (forall b d, final1 b d = final2 b d) ->
  read_stream JSON_parse final1 stream = read_stream JSON_parse final2 stream.
Proof.
  intros E. unfold read_stream.
  destruct (for_await _ _ _ _) as [evs [b d|u]]; [|reflexivity].
  rewrite E. reflexivity.
Qed.

Lemma try_block_same JSON_parse response :
  OpenAIResponsesApiService.try_block JSON_parse response =
  OpenAIApiService.try_block JSON_parse response.
Proof.
  destruct response as [stream|error]; [|reflexivity]. simpl.
  apply read_stream_ext. apply final_same.
Qed.

Section SideBySide.

Variable T : Type.
Variable post : T -> string -> Body -> Outcome JSON.value * T.
Variable JSON_parse : jsstring -> option JSON.value.
Variable post_stream : T -> string -> Body -> Outcome Readable * T.
Variables (s1 : OpenAIApiService.t) (s2 : OpenAIResponsesApiService.t).
Variables (endpoint : string) (body : Body) (isRetry : bool).

Hypothesis same_maxRetries :
  OpenAIResponsesApiService.maxRetries s2 = OpenAIApiService.maxRetries s1.
Hypothesis same_baseDelay :
  OpenAIResponsesApiService.baseDelay s2 = OpenAIApiService.baseDelay s1.

Lemma callApi_same retryCount net :
  OpenAIResponsesApiService.callApi s2 post endpoint body isRetry retryCount net
  = OpenAIApiService.callApi s1 post endpoint body isRetry retryCount net.
Proof.
  remember (budget (OpenAIApiService.maxRetries s1) retryCount) as n eqn:Hn.
  revert retryCount net Hn.
  induction n as [n IH] using lt_wf_ind; intros retryCount net Hn.
  rewrite core_callApi_eq, responses_callApi_eq.
  rewrite same_maxRetries, same_baseDelay.
  destruct (post net endpoint body) as [[data|error] net']; [reflexivity|].
  destruct (is_auth (status error)); [reflexivity|].
  destruct (retries _ _ _) eqn:R; [|reflexivity].
  apply retries_lessThan in R. apply budget_decreases in R.
  rewrite <- Hn in R. rewrite (IH _ R _ net' eq_refl). reflexivity.
Qed.

Lemma streamApi_same retryCount net :
  OpenAIResponsesApiService.streamApi s2 JSON_parse post_stream endpoint body
    isRetry retryCount net
  = OpenAIApiService.streamApi s1 JSON_parse post_stream endpoint body
      isRetry retryCount net.
Proof.
  remember (budget (OpenAIApiService.maxRetries s1) retryCount) as n eqn:Hn.
  revert retryCount net Hn.
  induction n as [n IH] using lt_wf_ind; intros retryCount net Hn.
  rewrite core_streamApi_eq, responses_streamApi_eq. cbv zeta.
  rewrite same_maxRetries, same_baseDelay.
  change (OpenAIResponsesApiService.streamRequestBody body)
    with (OpenAIApiService.streamRequestBody body).
  destruct (post_stream net endpoint _) as [response net'].
  rewrite try_block_same.
  destruct (OpenAIApiService.try_block JSON_parse response)
    as [evs [error|]]; [|reflexivity].
  destruct (is_auth (status error)); [reflexivity|].
  destruct (retries _ _ _) eqn:R; [|reflexivity].
  apply retries_lessThan in R. apply budget_decreases in R.
  rewrite <- Hn in R. rewrite (IH _ R _ net' eq_refl). reflexivity.
Qed.

End SideBySide.

(** C10. Both retry settings are set, one of them to 0, and the transport
    answers 429 once and then succeeds.  With a maximum of 0 retries
    [OpenAIApiService] throws after its one request, in [callApi] and in
    [streamApi], while [OpenAIResponsesApiService], whose [|| 3] takes the
    configured 0 for an unset value, waits, retries and returns.  With a
    base delay of 0 [OpenAIApiService] waits 0 ms before its retry while
    [OpenAIResponsesApiService], through [|| 1000], waits 1000 ms.  The same
    happens for a maximum that is [NaN].  So the two services do not give
    identical results on identical transport outcomes although both
    settings are set. *)
Theorem responses_takes_configured_zero_for_unset :
  let cfg0 := mkConfig (Some "sk-test"%string) None None (num 0) (num 1000) in
  let cfgb := mkConfig (Some "sk-test"%string) None None (num 3) (num 0) in
  let cfgn := mkConfig (Some "sk-test"%string) None None NaN (num 1000) in
  let core := fun cfg => OpenAIApiService.mk cfg "sk-test" None false in
  let resp := fun cfg =>
    OpenAIResponsesApiService.mk cfg "sk-test"
      (Some "https://api.openai.com/v1"%string) false in
  let e := mkError (Some 429) "Too Many Requests" in
  let ok := JSON.Object [(lit "id", JSON.Number 7 0)] in
  let post := scripted (fun k => match k with
                                 | O => Reject e
                                 | S _ => Resolve ok
                                 end) in
  let post_stream :=
    scripted (fun k => match k with
                       | O => Reject e
                       | S _ => Resolve (mkReadable
                                           [bytes "data: 1" ++ [x0a]] None)
                       end) in
  let wire := [(lit "stream", JSON.Bool true)] in
  (OpenAIApiService.new cfg0 = inr (core cfg0)
   /\ OpenAIResponsesApiService.new cfg0 = inr (resp cfg0)
   /\ OpenAIApiService.new cfgb = inr (core cfgb)
   /\ OpenAIResponsesApiService.new cfgb = inr (resp cfgb))
  /\ (OpenAIApiService.callApi (core cfg0) post "/v" [] false 0 0%nat
      = (Throw e, 1%nat, [Post "/v" []])
      /\ OpenAIResponsesApiService.callApi (resp cfg0) post "/v" [] false 0
           0%nat
         = (Return ok, 2%nat, [Post "/v" []; Sleep (num 1000); Post "/v" []])
      /\ OpenAIApiService.streamApi (core cfg0) JSON.parse post_stream "/v" []
           false 0 0%nat
         = (Throw e, 1%nat, [Post "/v" wire])
      /\ OpenAIResponsesApiService.streamApi (resp cfg0) JSON.parse
           post_stream "/v" [] false 0 0%nat
         = (Return tt, 2%nat,
            [Post "/v" wire; Sleep (num 1000); Post "/v" wire;
             Yield (JSON.Number 1 0)]))
  /\ (OpenAIApiService.callApi (core cfgb) post "/v" [] false 0 0%nat
      = (Return ok, 2%nat, [Post "/v" []; Sleep (num 0); Post "/v" []])
      /\ OpenAIResponsesApiService.callApi (resp cfgb) post "/v" [] false 0
           0%nat
         = (Return ok, 2%nat, [Post "/v" []; Sleep (num 1000); Post "/v" []]))
  /\ (OpenAIApiService.callApi (core cfgn) post "/v" [] false 0 0%nat
      = (Throw e, 1%nat, [Post "/v" []])
      /\ OpenAIResponsesApiService.callApi (resp cfgn) post "/v" [] false 0
           0%nat
         = (Return ok, 2%nat, [Post "/v" []; Sleep (num 1000); Post "/v" []]))
  /\ OpenAIApiService.callApi (core cfg0) post "/v" [] false 0 0%nat
     <> OpenAIResponsesApiService.callApi (resp cfg0) post "/v" [] false 0
          0%nat
  /\ OpenAIApiService.callApi (core cfgb) post "/v" [] false 0 0%nat
     <> OpenAIResponsesApiService.callApi (resp cfgb) post "/v" [] false 0
          0%nat.
Proof.
  intros cfg0 cfgb cfgn core resp e ok post post_stream wire.
  split; [repeat split; reflexivity|].
  split; [repeat split; reflexivity|].
  split; [split; reflexivity|].
  split; [split; reflexivity|].
  split; intros H; vm_compute in H; discriminate H.
Qed.

(** Where the two services do agree.  For services built from one
    configuration whose two retry settings are numbers other than 0,
    [callApi] gives the same completion, the same transport state and the
    same observations (requests and waits, in order) in both services, and
    so does [streamApi], events included, for every transport, endpoint,
    body and retry count. *)
Theorem services_agree_on_nonzero_settings
    (T : Type)
    (post : T -> string -> Body -> Outcome JSON.value * T)
    (JSON_parse : jsstring -> option JSON.value)
    (post_stream : T -> string -> Body -> Outcome Readable * T)
    (cfg : Config) (s1 : OpenAIApiService.t)
    (s2 : OpenAIResponsesApiService.t) (m b : Z)
    (endpoint : string) (body : Body) (isRetry : bool) (retryCount : nat)
    (net : T) :
  OpenAIApiService.new cfg = inr s1 ->
  OpenAIResponsesApiService.new cfg = inr s2 ->
  REQUEST_MAX_RETRIES cfg = num m -> m <> 0 ->
  REQUEST_BASE_DELAY cfg = num b -> b <> 0 ->
  OpenAIApiService.callApi s1 post endpoint body isRetry retryCount net
  = OpenAIResponsesApiService.callApi s2 post endpoint body isRetry
      retryCount net
  /\ OpenAIApiService.streamApi s1 JSON_parse post_stream endpoint body
       isRetry retryCount net
     = OpenAIResponsesApiService.streamApi s2 JSON_parse post_stream endpoint
         body isRetry retryCount net.
Proof.
  intros N1 N2 Hm Hm0 Hb Hb0.
  apply core_new_config in N1. apply responses_new_config in N2.
  assert (E1 : OpenAIResponsesApiService.maxRetries s2
               = OpenAIApiService.maxRetries s1).
  { unfold OpenAIResponsesApiService.maxRetries, OpenAIApiService.maxRetries.
    rewrite N1, N2, Hm. destruct m; [contradiction| |]; reflexivity. }
  assert (E2 : OpenAIResponsesApiService.baseDelay s2
               = OpenAIApiService.baseDelay s1).
  { unfold OpenAIResponsesApiService.baseDelay, OpenAIApiService.baseDelay.
    rewrite N1, N2, Hb. destruct b; [contradiction| |]; reflexivity. }
  split; symmetry.
  - apply callApi_same; assumption.
  - apply streamApi_same; assumption.
Qed.

(** Two retries of 50 ms base delay, against 500, 429, then a stream. *)
Lemma services_agree_on_nonzero_settings_witness :
  let cfg := mkConfig (Some "sk-test"%string) None None (num 2) (num 50) in
  let s1 := OpenAIApiService.mk cfg "sk-test" None false in
  let s2 := OpenAIResponsesApiService.mk cfg "sk-test"
              (Some "https://api.openai.com/v1"%string) false in
  let script (k : nat) :=
    match k with
    | O => Reject (mkError (Some 500) "Internal Server Error")
    | S O => Reject (mkError (Some 429) "Too Many Requests")
    | _ => Resolve (mkReadable [bytes "data: 1" ++ [x0a] ++ bytes "data: [DONE]"]
                               None)
    end in
  OpenAIApiService.new cfg = inr s1
  /\ OpenAIResponsesApiService.new cfg = inr s2
  /\ snd (OpenAIApiService.streamApi s1 JSON.parse (scripted script) "/v" []
            false 0 0%nat)
     = [Post "/v" [(lit "stream", JSON.Bool true)]; Sleep (num 50);
        Post "/v" [(lit "stream", JSON.Bool true)]; Sleep (num 100);
        Post "/v" [(lit "stream", JSON.Bool true)]; Yield (JSON.Number 1 0)]
  /\ OpenAIApiService.streamApi s1 JSON.parse (scripted script) "/v" []
       false 0 0%nat
     = OpenAIResponsesApiService.streamApi s2 JSON.parse (scripted script)
         "/v" [] false 0 0%nat.
Proof.
  intros cfg s1 s2 script.
  split; [reflexivity|]. split; [reflexivity|]. split; [reflexivity|].
  apply (proj2 (services_agree_on_nonzero_settings nat
                  (scripted (fun _ => Resolve JSON.Null)) JSON.parse
                  (scripted script) cfg s1 s2 2 50 "/v" [] false 0 0%nat
                  eq_refl eq_refl eq_refl ltac:(discriminate)
                  eq_refl ltac:(discriminate))).
Defined.

(** * Further properties *)

(** ** The shape of a call: requests, waits, bounds *)

Lemma retryable_not_auth st : retryable st = true -> is_auth st = false.
Proof.
  destruct st as [s|]; [|reflexivity]. unfold retryable. simpl.
  intros H. apply orb_prop in H. destruct H as [H|H].
  - apply Z.eqb_eq in H. subst. reflexivity.
  - apply andb_prop in H. destruct H as [H _]. apply Z.leb_le in H.
    destruct (s =? 401) eqn:E1; [apply Z.eqb_eq in E1; lia|].
    destruct (s =? 403) eqn:E2; [apply Z.eqb_eq in E2; lia|].
    reflexivity.
Qed.

Lemma retries_retryable st retryCount maxRetries :
  retries st retryCount maxRetries =
  retryable st && lessThan (Z.of_nat retryCount) maxRetries.
Proof.
  unfold retries, retryable.
  destruct (is_429 st), (is_5xx st), (lessThan _ _); reflexivity.
Qed.

Lemma effects_yields evs rest : effects (map Yield evs ++ rest) = effects rest.
Proof. induction evs as [|v evs IH]; simpl; [reflexivity | exact IH]. Qed.

Lemma effects_only_yields evs : effects (map Yield evs) = [].
Proof. rewrite <- (app_nil_r (map Yield evs)). apply effects_yields. Qed.

Lemma yields_events evs rest : yields (map Yield evs ++ rest) = evs ++ yields rest.
Proof. induction evs as [|v evs IH]; simpl; [reflexivity | rewrite IH; reflexivity]. Qed.

Lemma yields_only_events evs : yields (map Yield evs) = evs.
Proof.
  rewrite <- (app_nil_r (map Yield evs)), yields_events. apply app_nil_r.
Qed.

Ltac budget_induction maxRetries retryCount net :=
  let n := fresh "n" in
  let Hn := fresh "Hn" in
  let IH := fresh "IH" in
  remember (budget maxRetries retryCount) as n eqn:Hn;
  revert retryCount net Hn;
  induction n as [n IH] using lt_wf_ind; intros retryCount net Hn.

Ltac retry_budget R Hn :=
  apply retries_lessThan in R; apply budget_decreases in R;
  rewrite <- Hn in R.

Section Shape.

Variable T : Type.
Variable post : T -> string -> Body -> Outcome JSON.value * T.
Variable JSON_parse : jsstring -> option JSON.value.
Variable post_stream : T -> string -> Body -> Outcome Readable * T.
Variables (endpoint : string) (body : Body) (isRetry : bool).

Lemma core_callApi_shape this retryCount net :
  exists n, (n <= budget (OpenAIApiService.maxRetries this) retryCount)%nat
    /\ snd (OpenAIApiService.callApi this post endpoint body isRetry
              retryCount net)
       = rounds (Post endpoint body) (OpenAIApiService.baseDelay this)
           retryCount n ++ [Post endpoint body].
Proof.
  budget_induction (OpenAIApiService.maxRetries this) retryCount net.
  rewrite core_callApi_eq.
  destruct (post net endpoint body) as [[data|error] net'];
    [exists 0%nat; split; [lia | reflexivity]|].
  destruct (is_auth (status error));
    [exists 0%nat; split; [lia | reflexivity]|].
  destruct (retries _ _ _) eqn:R;
    [|exists 0%nat; split; [lia | reflexivity]].
  retry_budget R Hn.
  destruct (IH _ R (S retryCount) net' eq_refl) as (k & Hk & E).
  destruct (OpenAIApiService.callApi _ _ _ _ _ _ _) as [[r n''] obs].
  simpl in E. subst obs. exists (S k). split; [lia | reflexivity].
Qed.

Lemma responses_callApi_shape this retryCount net :
  exists n,
    (n <= budget (OpenAIResponsesApiService.maxRetries this) retryCount)%nat
    /\ snd (OpenAIResponsesApiService.callApi this post endpoint body isRetry
              retryCount net)
       = rounds (Post endpoint body) (OpenAIResponsesApiService.baseDelay this)
           retryCount n ++ [Post endpoint body].
Proof.
  budget_induction (OpenAIResponsesApiService.maxRetries this) retryCount net.
  rewrite responses_callApi_eq.
  destruct (post net endpoint body) as [[data|error] net'];
    [exists 0%nat; split; [lia | reflexivity]|].
  destruct (is_auth (status error));
    [exists 0%nat; split; [lia | reflexivity]|].
  destruct (retries _ _ _) eqn:R;
    [|exists 0%nat; split; [lia | reflexivity]].
  retry_budget R Hn.
  destruct (IH _ R (S retryCount) net' eq_refl) as (k & Hk & E).
  destruct (OpenAIResponsesApiService.callApi _ _ _ _ _ _ _) as [[r n''] obs].
  simpl in E. subst obs. exists (S k). split; [lia | reflexivity].
Qed.

Lemma effects_attempt p evs : is_yield p = false ->
  effects (p :: map Yield evs) = [p].
Proof.
  intros H. unfold effects. simpl. rewrite H. simpl.
  fold (effects (map Yield evs)). rewrite effects_only_yields. reflexivity.
Qed.

Lemma effects_retry p evs delay obs : is_yield p = false ->
  effects (p :: map Yield evs ++ Sleep delay :: obs)
  = p :: Sleep delay :: effects obs.
Proof.
  intros H. unfold effects at 1. simpl. rewrite H. simpl.
  fold (effects (map Yield evs ++ Sleep delay :: obs)).
  rewrite effects_yields. reflexivity.
Qed.

Lemma core_streamApi_shape this retryCount net :
  exists n, (n <= budget (OpenAIApiService.maxRetries this) retryCount)%nat
    /\ effects (snd (OpenAIApiService.streamApi this JSON_parse post_stream
                       endpoint body isRetry retryCount net))
       = rounds (Post endpoint (OpenAIApiService.streamRequestBody body))
           (OpenAIApiService.baseDelay this) retryCount n
         ++ [Post endpoint (OpenAIApiService.streamRequestBody body)].
Proof.
  budget_induction (OpenAIApiService.maxRetries this) retryCount net.
  rewrite core_streamApi_eq. cbv zeta.
  destruct (post_stream net endpoint _) as [response net'].
  destruct (OpenAIApiService.try_block JSON_parse response) as [evs [error|]];
    [|exists 0%nat; split; [lia | apply effects_attempt; reflexivity]].
  destruct (is_auth (status error));
    [exists 0%nat; split; [lia | apply effects_attempt; reflexivity]|].
  destruct (retries _ _ _) eqn:R;
    [|exists 0%nat; split; [lia | apply effects_attempt; reflexivity]].
  retry_budget R Hn.
  destruct (IH _ R (S retryCount) net' eq_refl) as (k & Hk & E).
  destruct (OpenAIApiService.streamApi _ _ _ _ _ _ _ _) as [[r n''] obs].
  simpl in E. exists (S k). split; [lia|]. cbn [snd].
  rewrite effects_retry by reflexivity. rewrite E. reflexivity.
Qed.

Lemma responses_streamApi_shape this retryCount net :
  exists n,
    (n <= budget (OpenAIResponsesApiService.maxRetries this) retryCount)%nat
    /\ effects (snd (OpenAIResponsesApiService.streamApi this JSON_parse
                       post_stream endpoint body isRetry retryCount net))
       = rounds
           (Post endpoint (OpenAIResponsesApiService.streamRequestBody body))
           (OpenAIResponsesApiService.baseDelay this) retryCount n
         ++ [Post endpoint (OpenAIResponsesApiService.streamRequestBody body)].
Proof.
  budget_induction (OpenAIResponsesApiService.maxRetries this) retryCount net.
  rewrite responses_streamApi_eq. cbv zeta.
  destruct (post_stream net endpoint _) as [response net'].
  destruct (OpenAIResponsesApiService.try_block JSON_parse response)
    as [evs [error|]];
    [|exists 0%nat; split; [lia | apply effects_attempt; reflexivity]].
  destruct (is_auth (status error));
    [exists 0%nat; split; [lia | apply effects_attempt; reflexivity]|].
  destruct (retries _ _ _) eqn:R;
    [|exists 0%nat; split; [lia | apply effects_attempt; reflexivity]].
  retry_budget R Hn.
  destruct (IH _ R (S retryCount) net' eq_refl) as (k & Hk & E).
  destruct (OpenAIResponsesApiService.streamApi _ _ _ _ _ _ _ _)
    as [[r n''] obs].
  simpl in E. exists (S k). split; [lia|]. cbn [snd].
  rewrite effects_retry by reflexivity. rewrite E. reflexivity.
Qed.

End Shape.

(** X1. Whatever the transport answers, the observations of [callApi] are
    [n] failed attempts followed by one last request, with
    [n <= maxRetries - retryCount] (and [n = 0] when that is not positive or
    [maxRetries] is unset): requests and waits alternate, every request is
    the same, the wait after the attempt at retry count [k] is
    [baseDelay * 2 ^ k], and at most [maxRetries - retryCount + 1] requests
    are sent.  This holds in both services, each with its own reading of the
    settings. *)
Theorem callApi_attempts_alternate_with_backoff
    (T : Type) (post : T -> string -> Body -> Outcome JSON.value * T)
    (s1 : OpenAIApiService.t) (s2 : OpenAIResponsesApiService.t)
    (endpoint : string) (body : Body) (isRetry : bool) (retryCount : nat)
    (net : T) :
  (exists n,
      (n <= budget (REQUEST_MAX_RETRIES (OpenAIApiService.config s1))
              retryCount)%nat
      /\ snd (OpenAIApiService.callApi s1 post endpoint body isRetry
                retryCount net)
         = rounds (Post endpoint body)
             (REQUEST_BASE_DELAY (OpenAIApiService.config s1)) retryCount n
           ++ [Post endpoint body])
  /\ (exists n,
         (n <= budget
                 (or_default
                    (REQUEST_MAX_RETRIES (OpenAIResponsesApiService.config s2))
                    3) retryCount)%nat
         /\ snd (OpenAIResponsesApiService.callApi s2 post endpoint body
                   isRetry retryCount net)
            = rounds (Post endpoint body)
                (or_default
                   (REQUEST_BASE_DELAY (OpenAIResponsesApiService.config s2))
                   1000) retryCount n
              ++ [Post endpoint body]).
Proof.
  split.
  - apply core_callApi_shape.
  - apply responses_callApi_shape.
Qed.

(** X2. The same for [streamApi]: once the yielded events are set aside,
    its observations are [n] failed attempts followed by one last request,
    [n <= maxRetries - retryCount], every request carrying the wire body
    [{ ...body, stream: true }] and every wait being
    [baseDelay * 2 ^ k] for its retry count [k]; this bounds the streams a
    call can open, mid-stream failures included. *)
Theorem streamApi_attempts_alternate_with_backoff
    (T : Type) (JSON_parse : jsstring -> option JSON.value)
    (post_stream : T -> string -> Body -> Outcome Readable * T)
    (s1 : OpenAIApiService.t) (s2 : OpenAIResponsesApiService.t)
    (endpoint : string) (body : Body) (isRetry : bool) (retryCount : nat)
    (net : T) :
  let wire := set_property (lit "stream") (JSON.Bool true) body in
  (exists n,
      (n <= budget (REQUEST_MAX_RETRIES (OpenAIApiService.config s1))
              retryCount)%nat
      /\ effects (snd (OpenAIApiService.streamApi s1 JSON_parse post_stream
                         endpoint body isRetry retryCount net))
         = rounds (Post endpoint wire)
             (REQUEST_BASE_DELAY (OpenAIApiService.config s1)) retryCount n
           ++ [Post endpoint wire])
  /\ (exists n,
         (n <= budget
                 (or_default
                    (REQUEST_MAX_RETRIES (OpenAIResponsesApiService.config s2))
                    3) retryCount)%nat
         /\ effects (snd (OpenAIResponsesApiService.streamApi s2 JSON_parse
                            post_stream endpoint body isRetry retryCount net))
            = rounds (Post endpoint wire)
                (or_default
                   (REQUEST_BASE_DELAY (OpenAIResponsesApiService.config s2))
                   1000) retryCount n
              ++ [Post endpoint wire]).
Proof.
  intros wire. split.
  - apply core_streamApi_shape.
  - apply responses_streamApi_shape.
Qed.

(** ** Which answer decides, and when the retries run out *)

Lemma budget_zero maxRetries retryCount :
  budget maxRetries retryCount = 0%nat ->
  lessThan (Z.of_nat retryCount) maxRetries = false.
Proof.
  destruct maxRetries as [|m|]; simpl; try reflexivity.
  intros H. apply Z.ltb_ge. lia.
Qed.

Lemma budget_succ maxRetries retryCount k :
  budget maxRetries retryCount = S k ->
  lessThan (Z.of_nat retryCount) maxRetries = true
  /\ budget maxRetries (S retryCount) = k.
Proof.
  destruct maxRetries as [|m|]; simpl; try discriminate.
  intros H. split; [apply Z.ltb_lt; lia | lia].
Qed.


Section Scripted.

Variable script : nat -> Outcome JSON.value.
Variables (endpoint : string) (body : Body) (isRetry : bool).

Lemma core_callApi_last_answer this retryCount net :
  let '(r, net', obs) :=
    OpenAIApiService.callApi this (scripted script) endpoint body isRetry
      retryCount net in
  net' = (net + length (posts obs))%nat
  /\ decided_by (script (pred net')) r.
Proof.
  budget_induction (OpenAIApiService.maxRetries this) retryCount net.
  rewrite core_callApi_eq. unfold scripted at 1.
  destruct (script net) as [data|error] eqn:A.
  { simpl. rewrite Nat.add_1_r. split; [reflexivity | exact A]. }
  destruct (is_auth (status error)).
  { simpl. rewrite Nat.add_1_r. split; [reflexivity | exact A]. }
  destruct (retries _ _ _) eqn:R.
  - retry_budget R Hn. specialize (IH _ R (S retryCount) (S net) eq_refl).
    destruct (OpenAIApiService.callApi _ _ _ _ _ _ _) as [[r n''] obs].
    destruct IH as [E D]. split; [|exact D].
    unfold posts in *. simpl. lia.
  - simpl. rewrite Nat.add_1_r. split; [reflexivity | exact A].
Qed.

Lemma responses_callApi_last_answer this retryCount net :
  let '(r, net', obs) :=
    OpenAIResponsesApiService.callApi this (scripted script) endpoint body
      isRetry retryCount net in
  net' = (net + length (posts obs))%nat
  /\ decided_by (script (pred net')) r.
Proof.
  budget_induction (OpenAIResponsesApiService.maxRetries this) retryCount net.
  rewrite responses_callApi_eq. unfold scripted at 1.
  destruct (script net) as [data|error] eqn:A.
  { simpl. rewrite Nat.add_1_r. split; [reflexivity | exact A]. }
  destruct (is_auth (status error)).
  { simpl. rewrite Nat.add_1_r. split; [reflexivity | exact A]. }
  destruct (retries _ _ _) eqn:R.
  - retry_budget R Hn. specialize (IH _ R (S retryCount) (S net) eq_refl).
    destruct (OpenAIResponsesApiService.callApi _ _ _ _ _ _ _)
      as [[r n''] obs].
    destruct IH as [E D]. split; [|exact D].
    unfold posts in *. simpl. lia.
  - simpl. rewrite Nat.add_1_r. split; [reflexivity | exact A].
Qed.

Lemma core_callApi_exhausts this : forall k retryCount net,
  budget (OpenAIApiService.maxRetries this) retryCount = k ->
  (forall i, (net <= i <= net + k)%nat ->
             exists e, script i = Reject e /\ retryable (status e) = true) ->
  exists e,
    script (net + k)%nat = Reject e
    /\ OpenAIApiService.callApi this (scripted script) endpoint body isRetry
         retryCount net
       = (Throw e, S (net + k),
          rounds (Post endpoint body) (OpenAIApiService.baseDelay this)
            retryCount k ++ [Post endpoint body]).
Proof.
  induction k as [|k IH]; intros retryCount net Hb Hs.
  - destruct (Hs net ltac:(lia)) as (e & A & Re).
    exists e. rewrite Nat.add_0_r. split; [exact A|].
    rewrite core_callApi_eq. unfold scripted at 1. rewrite A.
    rewrite (retryable_not_auth _ Re), retries_retryable, Re.
    rewrite (budget_zero _ _ Hb). reflexivity.
  - destruct (Hs net ltac:(lia)) as (e0 & A & Re).
    destruct (budget_succ _ _ _ Hb) as [L Hb'].
    destruct (IH (S retryCount) (S net) Hb') as (e & Ae & E).
    { intros i Hi. apply Hs. lia. }
    exists e. replace (net + S k)%nat with (S net + k)%nat by lia.
    split; [exact Ae|].
    rewrite core_callApi_eq. unfold scripted at 1. rewrite A.
    rewrite (retryable_not_auth _ Re), retries_retryable, Re, L, E.
    reflexivity.
Qed.

Lemma responses_callApi_exhausts this : forall k retryCount net,
  budget (OpenAIResponsesApiService.maxRetries this) retryCount = k ->
  (forall i, (net <= i <= net + k)%nat ->
             exists e, script i = Reject e /\ retryable (status e) = true) ->
  exists e,
    script (net + k)%nat = Reject e
    /\ OpenAIResponsesApiService.callApi this (scripted script) endpoint body
         isRetry retryCount net
       = (Throw e, S (net + k),
          rounds (Post endpoint body)
            (OpenAIResponsesApiService.baseDelay this) retryCount k
          ++ [Post endpoint body]).
Proof.
  induction k as [|k IH]; intros retryCount net Hb Hs.
  - destruct (Hs net ltac:(lia)) as (e & A & Re).
    exists e. rewrite Nat.add_0_r. split; [exact A|].
    rewrite responses_callApi_eq. unfold scripted at 1. rewrite A.
    rewrite (retryable_not_auth _ Re), retries_retryable, Re.
    rewrite (budget_zero _ _ Hb). reflexivity.
  - destruct (Hs net ltac:(lia)) as (e0 & A & Re).
    destruct (budget_succ _ _ _ Hb) as [L Hb'].
    destruct (IH (S retryCount) (S net) Hb') as (e & Ae & E).
    { intros i Hi. apply Hs. lia. }
    exists e. replace (net + S k)%nat with (S net + k)%nat by lia.
    split; [exact Ae|].
    rewrite responses_callApi_eq. unfold scripted at 1. rewrite A.
    rewrite (retryable_not_auth _ Re), retries_retryable, Re, L, E.
    reflexivity.
Qed.

End Scripted.

(** X3. Against a transport that answers by the number of requests made,
    [callApi] consumes one answer per request it sends, and its completion
    is the last answer it received: it returns that answer's body, or
    throws that answer's error (never an earlier one).  Both services. *)
Theorem callApi_completes_with_last_answer
    (script : nat -> Outcome JSON.value)
    (s1 : OpenAIApiService.t) (s2 : OpenAIResponsesApiService.t)
    (endpoint : string) (body : Body) (isRetry : bool) (retryCount : nat)
    (net : nat) :
  (let '(r, net', obs) :=
     OpenAIApiService.callApi s1 (scripted script) endpoint body isRetry
       retryCount net in
   net' = (net + length (posts obs))%nat
   /\ decided_by (script (pred net')) r)
  /\ (let '(r, net', obs) :=
        OpenAIResponsesApiService.callApi s2 (scripted script) endpoint body
          isRetry retryCount net in
      net' = (net + length (posts obs))%nat
      /\ decided_by (script (pred net')) r).
Proof.
  split.
  - apply core_callApi_last_answer.
  - apply responses_callApi_last_answer.
Qed.

(** X4. When every answer is a rejection with status 429 or 5xx, [callApi]
    started at [retryCount] with [k = maxRetries - retryCount] retries left
    (0 when that is not positive or the maximum is unset) sends exactly
    [k + 1] requests, waits [baseDelay * 2 ^ i] after the attempt at each
    retry count [i], and throws the error of the last answer.  Both
    services, each with its own reading of the settings. *)
Theorem callApi_gives_up_after_max_retries
    (script : nat -> Outcome JSON.value)
    (s1 : OpenAIApiService.t) (s2 : OpenAIResponsesApiService.t)
    (endpoint : string) (body : Body) (isRetry : bool) (retryCount : nat)
    (net k : nat) :
  (forall i, (net <= i <= net + k)%nat ->
             exists e, script i = Reject e /\ retryable (status e) = true) ->
  (budget (REQUEST_MAX_RETRIES (OpenAIApiService.config s1)) retryCount = k ->
   exists e,
     script (net + k)%nat = Reject e
     /\ OpenAIApiService.callApi s1 (scripted script) endpoint body isRetry
          retryCount net
        = (Throw e, S (net + k),
           rounds (Post endpoint body)
             (REQUEST_BASE_DELAY (OpenAIApiService.config s1)) retryCount k
           ++ [Post endpoint body]))
  /\ (budget (or_default
                (REQUEST_MAX_RETRIES (OpenAIResponsesApiService.config s2)) 3)
        retryCount = k ->
      exists e,
        script (net + k)%nat = Reject e
        /\ OpenAIResponsesApiService.callApi s2 (scripted script) endpoint
             body isRetry retryCount net
           = (Throw e, S (net + k),
              rounds (Post endpoint body)
                (or_default
                   (REQUEST_BASE_DELAY (OpenAIResponsesApiService.config s2))
                   1000) retryCount k
              ++ [Post endpoint body])).
Proof.
  intros Hs. split; intros Hb.
  - apply core_callApi_exhausts; assumption.
  - apply responses_callApi_exhausts; assumption.
Qed.

(** Two retries of 100 ms against a server that answers 503 three times and
    then 429 for ever: three requests, two waits, the third error thrown. *)
Lemma callApi_gives_up_after_max_retries_witness :
  let cfg := mkConfig (Some "sk-test"%string) None None (num 2) (num 100) in
  let s1 := OpenAIApiService.mk cfg "sk-test" None false in
  let e1 := mkError (Some 503) "Service Unavailable" in
  let e2 := mkError (Some 429) "Too Many Requests" in
  let script := fun i => if (i <? 3)%nat then Reject e1
                         else @Reject JSON.value e2 in
  OpenAIApiService.callApi s1 (scripted script) "/chat/completions" [] false
    0 0%nat
  = (Throw e1, 3%nat,
     [Post "/chat/completions" []; Sleep (num 100);
      Post "/chat/completions" []; Sleep (num 200);
      Post "/chat/completions" []]).
Proof.
  intros cfg s1 e1 e2 script.
  destruct (proj1 (callApi_gives_up_after_max_retries script s1
                     (OpenAIResponsesApiService.mk cfg "sk-test" None false)
                     "/chat/completions" [] false 0 0 2
                     (fun i _ =>
                        if (i <? 3)%nat as b
                        return exists e,
                            (if b then Reject e1 else @Reject JSON.value e2)
                            = Reject e /\ retryable (status e) = true
                        then ex_intro _ e1 (conj eq_refl eq_refl)
                        else ex_intro _ e2 (conj eq_refl eq_refl)))
             eq_refl) as (e & A & E).
  rewrite E. injection A as <-. reflexivity.
Defined.

(** X5. A failure whose status is neither 429 nor 5xx, or that carries no
    status at all (no response was received), is never retried, whatever
    the retry budget: [callApi] throws it after its one request, and
    [streamApi] throws it after the events the stream had delivered before
    it, whether the failure came with the response or in the middle of the
    stream.  Both services. *)
Theorem other_failures_not_retried
    (T : Type)
    (post : T -> string -> Body -> Outcome JSON.value * T)
    (JSON_parse : jsstring -> option JSON.value)
    (post_stream : T -> string -> Body -> Outcome Readable * T)
    (s1 : OpenAIApiService.t) (s2 : OpenAIResponsesApiService.t)
    (endpoint : string) (body : Body) (isRetry : bool) (retryCount : nat)
    (net net' : T) (error : Error) :
  retryable (status error) = false ->
  let wire := set_property (lit "stream") (JSON.Bool true) body in
  (post net endpoint body = (Reject error, net') ->
   OpenAIApiService.callApi s1 post endpoint body isRetry retryCount net
     = (Throw error, net', [Post endpoint body])
   /\ OpenAIResponsesApiService.callApi s2 post endpoint body isRetry
        retryCount net
      = (Throw error, net', [Post endpoint body]))
  /\ (forall response evs,
         post_stream net endpoint wire = (response, net') ->
         OpenAIApiService.try_block JSON_parse response = (evs, Some error) ->
         OpenAIApiService.streamApi s1 JSON_parse post_stream endpoint body
           isRetry retryCount net
         = (Throw error, net', Post endpoint wire :: map Yield evs)
         /\ OpenAIResponsesApiService.streamApi s2 JSON_parse post_stream
              endpoint body isRetry retryCount net
            = (Throw error, net', Post endpoint wire :: map Yield evs)).
Proof.
  intros Hr wire.
  assert (R : forall m, retries (status error) retryCount m = false).
  { intros m. rewrite retries_retryable, Hr. reflexivity. }
  split.
  - intros Hp. rewrite core_callApi_eq, responses_callApi_eq, Hp, !R.
    destruct (is_auth (status error)); auto.
  - intros response evs Hp Ht.
    rewrite core_streamApi_eq, responses_streamApi_eq. cbv zeta.
    change (OpenAIApiService.streamRequestBody body) with wire.
    change (OpenAIResponsesApiService.streamRequestBody body) with wire.
    rewrite Hp, try_block_same, Ht, !R.
    destruct (is_auth (status error)); auto.
Qed.

(** A 404 for [callApi]; for [streamApi] a stream that delivers one event
    and then breaks without any HTTP status. *)
Lemma other_failures_not_retried_witness :
  let cfg := mkConfig (Some "sk-test"%string) None None (num 3) (num 100) in
  let s1 := OpenAIApiService.mk cfg "sk-test" None false in
  let e404 := mkError (Some 404) "Not Found" in
  let reset := mkError None "socket hang up" in
  let broken := mkReadable [bytes "data: 1" ++ [x0a] ++ bytes "data: 2"]
                           (Some reset) in
  OpenAIApiService.callApi s1 (scripted (fun _ => Reject e404)) "/v" [] false
    0 0%nat
  = (Throw e404, 1%nat, [Post "/v" []])
  /\ OpenAIApiService.streamApi s1 JSON.parse
       (scripted (fun _ => Resolve broken)) "/v" [] false 0 0%nat
     = (Throw reset, 1%nat,
        Post "/v" [(lit "stream", JSON.Bool true)]
          :: map Yield [JSON.Number 1 0]).
Proof.
  intros cfg s1 e404 reset broken.
  set (s2 := OpenAIResponsesApiService.mk cfg "sk-test" None false).
  split.
  - apply (proj1 (other_failures_not_retried nat
                    (scripted (fun _ => Reject e404)) JSON.parse
                    (scripted (fun _ => Resolve broken)) s1 s2 "/v" [] false
                    0 0%nat 1%nat e404 eq_refl) eq_refl).
  - apply (proj2 (other_failures_not_retried nat
                    (scripted (fun _ => Reject e404)) JSON.parse
                    (scripted (fun _ => Resolve broken)) s1 s2 "/v" [] false
                    0 0%nat 1%nat reset eq_refl)
             (Resolve broken) [JSON.Number 1 0] eq_refl eq_refl).
Defined.

(** ** Streams that break *)

(** X6. When the source of a stream raises an error after its chunks and no
    sentinel was met, the [try] block has yielded the events of the complete
    lines only: the unterminated remainder is dropped, not flushed, and the
    error goes to [catch].  If that error is retryable and retries are left,
    [streamApi] then starts the request again: the events of the broken
    stream stay yielded and those of the following attempts come after
    them, so the caller can see an event twice.  Both services. *)
Theorem broken_stream_keeps_events_and_restarts
    (JSON_parse : jsstring -> option JSON.value)
    (cs : list (list byte)) (text r : jsstring) (d : StringDecoder.t)
    (evs : list JSON.value) (e : Error) :
  StringDecoder.write StringDecoder.init (concat cs) = (text, d) ->
  while_lines JSON_parse text = (evs, Some r) ->
  (OpenAIApiService.try_block JSON_parse (Resolve (mkReadable cs (Some e)))
   = (evs, Some e)
   /\ OpenAIResponsesApiService.try_block JSON_parse
        (Resolve (mkReadable cs (Some e)))
      = (evs, Some e))
  /\ (forall (T : Type)
             (post_stream : T -> string -> Body -> Outcome Readable * T)
             (s1 : OpenAIApiService.t) (s2 : OpenAIResponsesApiService.t)
             (endpoint : string) (body : Body) (isRetry : bool)
             (retryCount : nat) (net net' : T),
         post_stream net endpoint
           (set_property (lit "stream") (JSON.Bool true) body)
         = (Resolve (mkReadable cs (Some e)), net') ->
         retryable (status e) = true ->
         (lessThan (Z.of_nat retryCount)
            (REQUEST_MAX_RETRIES (OpenAIApiService.config s1)) = true ->
          yields (snd (OpenAIApiService.streamApi s1 JSON_parse post_stream
                         endpoint body isRetry retryCount net))
          = evs ++ yields (snd (OpenAIApiService.streamApi s1 JSON_parse
                                  post_stream endpoint body isRetry
                                  (S retryCount) net')))
         /\ (lessThan (Z.of_nat retryCount)
               (or_default
                  (REQUEST_MAX_RETRIES (OpenAIResponsesApiService.config s2))
                  3) = true ->
             yields (snd (OpenAIResponsesApiService.streamApi s2 JSON_parse
                            post_stream endpoint body isRetry retryCount net))
             = evs ++ yields (snd (OpenAIResponsesApiService.streamApi s2
                                     JSON_parse post_stream endpoint body
                                     isRetry (S retryCount) net')))).
Proof.
  intros W L.
  assert (B : OpenAIApiService.try_block JSON_parse
                (Resolve (mkReadable cs (Some e))) = (evs, Some e)).
  { unfold OpenAIApiService.try_block.
    rewrite read_stream_session, W. unfold session. simpl. rewrite L.
    reflexivity. }
  split; [split; [exact B | rewrite try_block_same; exact B]|].
  intros T post_stream s1 s2 endpoint body isRetry retryCount net net' Hp Hr.
  split; intros Hl.
  - rewrite core_streamApi_eq. cbv zeta.
    unfold OpenAIApiService.streamRequestBody at 1. rewrite Hp, B.
    rewrite (retryable_not_auth _ Hr), retries_retryable, Hr.
    unfold OpenAIApiService.maxRetries at 1. rewrite Hl.
    destruct (OpenAIApiService.streamApi _ _ _ _ _ _ _ _) as [[r' n''] obs].
    cbn [snd andb]. simpl yields. rewrite yields_events. reflexivity.
  - rewrite responses_streamApi_eq. cbv zeta.
    unfold OpenAIResponsesApiService.streamRequestBody at 1.
    rewrite Hp, try_block_same, B.
    rewrite (retryable_not_auth _ Hr), retries_retryable, Hr.
    unfold OpenAIResponsesApiService.maxRetries at 1. rewrite Hl.
    destruct (OpenAIResponsesApiService.streamApi _ _ _ _ _ _ _ _)
      as [[r' n''] obs].
    cbn [snd andb]. simpl yields. rewrite yields_events. reflexivity.
Qed.

(** A stream that delivers [data: 1], starts [data: 2] and breaks with a
    502; the second attempt delivers both lines: the caller sees 1, 1, 2. *)
Lemma broken_stream_keeps_events_and_restarts_witness :
  let cfg := mkConfig (Some "sk-test"%string) None None (num 3) (num 100) in
  let s1 := OpenAIApiService.mk cfg "sk-test" None false in
  let e := mkError (Some 502) "Bad Gateway" in
  let cs := [bytes "data: 1" ++ [x0a] ++ bytes "data: 2"] in
  let whole := mkReadable [bytes "data: 1" ++ [x0a] ++ bytes "data: 2"
                             ++ [x0a]] None in
  let post_stream :=
    scripted (fun i => match i with
                       | O => Resolve (mkReadable cs (Some e))
                       | S _ => Resolve whole
                       end) in
  OpenAIApiService.try_block JSON.parse (Resolve (mkReadable cs (Some e)))
  = ([JSON.Number 1 0], Some e)
  /\ yields (snd (OpenAIApiService.streamApi s1 JSON.parse post_stream "/v" []
                    false 0 0%nat))
     = [JSON.Number 1 0] ++ [JSON.Number 1 0; JSON.Number 2 0].
Proof.
  intros cfg s1 e cs whole post_stream.
  pose proof (broken_stream_keeps_events_and_restarts JSON.parse cs
                (text "data: 1" ++ [NL] ++ text "data: 2") (text "data: 2")
                StringDecoder.init [JSON.Number 1 0] e eq_refl eq_refl)
    as [[B _] R].
  split; [exact B|].
  apply (proj1 (R nat post_stream s1
                  (OpenAIResponsesApiService.mk cfg "sk-test" None false)
                  "/v"%string [] false 0%nat 0%nat 1%nat eq_refl eq_refl)
           eq_refl).
Defined.

(** ** Lines that do not count *)

Lemma complete_lines JSON_parse pre :
  pre = [] \/ (exists p, pre = p ++ [NL]) ->
  exists evs o, while_lines JSON_parse pre = (evs, o)
                /\ (o = None \/ o = Some []).
Proof.
  intros [-> | [p ->]].
  - exists [], (Some []). split; [reflexivity | auto].
  - rewrite while_lines_app.
    destruct (while_lines JSON_parse p) as [e [r|]] eqn:W; [|eauto].
    apply while_lines_rest in W.
    change (r ++ [NL]) with (r ++ NL :: []).
    rewrite while_lines_line by exact W.
    rewrite (while_lines_no_newline JSON_parse [] eq_refl).
    destruct (on_line JSON_parse (trim r)); eauto.
Qed.

Lemma trimStart_snoc l c :
  isWhiteSpace c = true ->
  trimStart (l ++ [c]) = match trimStart l with
                         | [] => []
                         | _ :: _ => trimStart l ++ [c]
                         end.
Proof.
  intros H. induction l as [|a l IH]; simpl.
  - rewrite H. reflexivity.
  - destruct (isWhiteSpace a); [exact IH | reflexivity].
Qed.

Lemma trimEnd_snoc s c : isWhiteSpace c = true -> trimEnd (s ++ [c]) = trimEnd s.
Proof.
  intros H. unfold trimEnd. rewrite rev_app_distr. simpl. rewrite H.
  reflexivity.
Qed.

Lemma trim_snoc l c : isWhiteSpace c = true -> trim (l ++ [c]) = trim l.
Proof.
  intros H. unfold trim. rewrite (trimStart_snoc _ _ H).
  destruct (trimStart l) as [|a t]; [reflexivity|].
  apply trimEnd_snoc. exact H.
Qed.

Lemma indexOf_snoc l c :
  indexOf NL l = None -> c <> NL -> indexOf NL (l ++ [c]) = None.
Proof.
  intros Hl Hc. apply indexOf_app_None; [exact Hl|]. simpl.
  destruct (c =? NL) eqn:E; [apply Z.eqb_eq in E; contradiction | reflexivity].
Qed.

(** X7. A complete line that does not start with [data: ] once trimmed (a
    blank line, an SSE comment, an [event:], [id:] or [retry:] field) is
    transparent: standing at a line boundary, it can be taken out of the
    text without changing the events, the sentinel handling or the buffer
    left, and so without changing what the [try] block of either service
    yields. *)
Theorem non_data_line_is_transparent
    (JSON_parse : jsstring -> option JSON.value)
    (pre line post : jsstring) :
  pre = [] \/ (exists p, pre = p ++ [NL]) ->
  indexOf NL line = None ->
  startsWith (lit "data: ") (trim line) = false ->
  while_lines JSON_parse (pre ++ line ++ NL :: post)
  = while_lines JSON_parse (pre ++ post)
  /\ (forall (cs cs' : list (list byte)) (d : StringDecoder.t)
             (f : option Error),
         StringDecoder.write StringDecoder.init (concat cs)
         = (pre ++ line ++ NL :: post, d) ->
         StringDecoder.write StringDecoder.init (concat cs')
         = (pre ++ post, d) ->
         OpenAIApiService.try_block JSON_parse (Resolve (mkReadable cs f))
         = OpenAIApiService.try_block JSON_parse (Resolve (mkReadable cs' f))
         /\ OpenAIResponsesApiService.try_block JSON_parse
              (Resolve (mkReadable cs f))
            = OpenAIResponsesApiService.try_block JSON_parse
                (Resolve (mkReadable cs' f))).
Proof.
  intros Hpre Hl Hd.
  assert (E : while_lines JSON_parse (pre ++ line ++ NL :: post)
              = while_lines JSON_parse (pre ++ post)).
  { destruct (complete_lines JSON_parse pre Hpre) as (evs & o & W & Ho).
    rewrite !while_lines_app, W.
    destruct Ho as [-> | ->]; [reflexivity|]. simpl.
    rewrite while_lines_line by exact Hl.
    unfold on_line. rewrite Hd. reflexivity. }
  split; [exact E|].
  intros cs cs' d f W W'.
  unfold OpenAIApiService.try_block, OpenAIResponsesApiService.try_block.
  rewrite !read_stream_session, W, W'. unfold session. simpl.
  rewrite E. auto.
Qed.

(** A comment line and a blank line between two events. *)
Lemma non_data_line_is_transparent_witness :
  let cs := [bytes "data: 1" ++ [x0a] ++ bytes ": keep-alive" ++ [x0a]
             ++ bytes "data: 2" ++ [x0a]] in
  let cs' := [bytes "data: 1" ++ [x0a] ++ bytes "data: 2" ++ [x0a]] in
  OpenAIApiService.try_block JSON.parse (Resolve (mkReadable cs' None))
  = ([JSON.Number 1 0; JSON.Number 2 0], None)
  /\ OpenAIApiService.try_block JSON.parse (Resolve (mkReadable cs None))
     = OpenAIApiService.try_block JSON.parse (Resolve (mkReadable cs' None)).
Proof.
  intros cs cs'. split; [reflexivity|].
  apply (proj2 (non_data_line_is_transparent JSON.parse
                  (text "data: 1" ++ [NL]) (text ": keep-alive")
                  (text "data: 2" ++ [NL])
                  (or_intror (ex_intro _ (text "data: 1") eq_refl))
                  eq_refl eq_refl)
           cs cs' StringDecoder.init None eq_refl eq_refl).
Defined.

(** X8. A white-space code unit other than the newline that stands right
    before a newline, such as the carriage return of a CR LF line end, is
    ignored: the line loop gives the same events, the same sentinel
    handling and the same buffer with it as without it, wherever in the
    text the line is. *)
Theorem whitespace_before_newline_ignored
    (JSON_parse : jsstring -> option JSON.value)
    (x post : jsstring) (c : Z) :
  isWhiteSpace c = true -> c <> NL ->
  while_lines JSON_parse (x ++ c :: NL :: post)
  = while_lines JSON_parse (x ++ NL :: post).
Proof.
  intros Hc Hn. rewrite !while_lines_app.
  destruct (while_lines JSON_parse x) as [evs [r|]] eqn:W; [|reflexivity].
  apply while_lines_rest in W.
  change (r ++ c :: NL :: post) with (r ++ [c] ++ NL :: post).
  rewrite app_assoc.
  rewrite (while_lines_line JSON_parse (r ++ [c]) post)
    by (apply indexOf_snoc; assumption).
  rewrite (while_lines_line JSON_parse r post) by exact W.
  rewrite (trim_snoc _ _ Hc). reflexivity.
Qed.

(** Two events sent with CR LF line ends. *)
Lemma whitespace_before_newline_ignored_witness :
  let x := text "data: 1" ++ [13; NL] ++ text "data: 2" in
  while_lines JSON.parse (x ++ 13 :: NL :: [])
  = while_lines JSON.parse (x ++ NL :: [])
  /\ while_lines JSON.parse (x ++ 13 :: NL :: [])
     = ([JSON.Number 1 0; JSON.Number 2 0], Some []).
Proof.
  intros x. split; [|reflexivity].
  apply (whitespace_before_newline_ignored JSON.parse x [] 13 eq_refl).
  discriminate.
Defined.

(** ** What a session can yield at most *)

Lemma while_lines_at_most_lines JSON_parse s :
  (length (fst (while_lines JSON_parse s)) <= count_occ Z.eq_dec s NL)%nat.
Proof.
  remember (length s) as n eqn:Hn. revert s Hn.
  induction n as [n IH] using lt_wf_ind. intros s Hn.
  destruct (indexOf NL s) as [i|] eqn:E.
  - destruct (first_line _ _ E) as (line & rest & -> & Hl & Hlen).
    rewrite while_lines_line by exact Hl.
    rewrite count_occ_app. simpl.
    destruct (Z.eq_dec NL NL) as [_|N]; [|contradiction].
    specialize (IH (length rest) ltac:(subst; exact Hlen) rest eq_refl).
    destruct (on_line JSON_parse (trim line)); simpl; try lia.
    destruct (while_lines JSON_parse rest) as [evs b]. simpl in *. lia.
  - rewrite (while_lines_no_newline _ _ E). simpl. lia.
Qed.

(** X9. Whatever bytes a stream delivers, if its source raises no error the
    [try] block raises none either (malformed text never fails a session),
    and it yields at most one event per newline of the decoded text plus
    one for the end-of-stream step.  Both services. *)
Theorem healthy_stream_never_fails
    (JSON_parse : jsstring -> option JSON.value)
    (cs : list (list byte)) :
  let decoded := fst (StringDecoder.write StringDecoder.init (concat cs)) in
  (snd (OpenAIApiService.try_block JSON_parse (Resolve (mkReadable cs None)))
   = None
   /\ (length (fst (OpenAIApiService.try_block JSON_parse
                      (Resolve (mkReadable cs None))))
       <= count_occ Z.eq_dec decoded NL + 1)%nat)
  /\ (snd (OpenAIResponsesApiService.try_block JSON_parse
             (Resolve (mkReadable cs None)))
      = None
      /\ (length (fst (OpenAIResponsesApiService.try_block JSON_parse
                         (Resolve (mkReadable cs None))))
          <= count_occ Z.eq_dec decoded NL + 1)%nat).
Proof.
  intros decoded.
  assert (C : snd (OpenAIApiService.try_block JSON_parse
                     (Resolve (mkReadable cs None))) = None
              /\ (length (fst (OpenAIApiService.try_block JSON_parse
                                 (Resolve (mkReadable cs None))))
                  <= count_occ Z.eq_dec decoded NL + 1)%nat).
  { unfold OpenAIApiService.try_block. rewrite read_stream_session.
    fold decoded. unfold session.
    pose proof (while_lines_at_most_lines JSON_parse decoded) as B.
    destruct (while_lines JSON_parse decoded) as [evs [r|]]; simpl in *.
    - split; [reflexivity|]. rewrite length_app, final_core_on_line.
      destruct (on_line JSON_parse _); simpl; lia.
    - split; [reflexivity | lia]. }
  split; [exact C|]. rewrite try_block_same. exact C.
Qed.

(** ** Construction *)



(** ** The wire body *)

Lemma set_property_absent k v o :
  get_property k o = None -> set_property k v o = o ++ [(k, v)].
Proof.
  induction o as [|[k' v'] r IH]; simpl; [reflexivity|].
  destruct (JS.eqb k' k); [discriminate|].
  intros H. rewrite (IH H). reflexivity.
Qed.

Lemma set_property_keys k v o :
  get_property k o <> None -> keys (set_property k v o) = keys o.
Proof.
  induction o as [|[k' v'] r IH]; simpl; [congruence|].
  destruct (JS.eqb k' k); [reflexivity|].
  intros H. simpl. f_equal. apply IH. exact H.
Qed.

Lemma set_property_twice k v o :
  set_property k v (set_property k v o) = set_property k v o.
Proof.
  assert (R : JS.eqb k k = true) by (apply eqb_eq; reflexivity).
  induction o as [|[k' v'] r IH]; simpl.
  - rewrite R. reflexivity.
  - destruct (JS.eqb k' k) eqn:E; simpl; rewrite E; [reflexivity|].
    rewrite IH. reflexivity.
Qed.

(** X11. The wire body of [streamApi] keeps the caller's properties in
    their order: when the caller's body has no [stream] property it is that
    body with [stream: true] added at the end; when it has one, the names
    and their order are unchanged (only the value of [stream] is set).
    Building the wire body of a wire body changes nothing.  Both
    services. *)
Theorem wire_body_keeps_properties (body : Body) :
  let wire := OpenAIApiService.streamRequestBody body in
  OpenAIResponsesApiService.streamRequestBody body = wire
  /\ (get_property (lit "stream") body = None ->
      wire = body ++ [(lit "stream", JSON.Bool true)])
  /\ (get_property (lit "stream") body <> None -> keys wire = keys body)
  /\ OpenAIApiService.streamRequestBody wire = wire.
Proof.
  intros wire. split; [reflexivity|]. split; [|split].
  - apply set_property_absent.
  - apply set_property_keys.
  - apply set_property_twice.
Qed.

(** A body without [stream], and a body that says [stream: false] first. *)
Lemma wire_body_keeps_properties_witness :
  let b1 := [(lit "model", JSON.String (lit "gpt"))] in
  let b2 := [(lit "stream", JSON.Bool false);
             (lit "model", JSON.String (lit "gpt"))] in
  OpenAIApiService.streamRequestBody b1
  = b1 ++ [(lit "stream", JSON.Bool true)]
  /\ keys (OpenAIApiService.streamRequestBody b2) = keys b2
  /\ OpenAIApiService.streamRequestBody b2
     = [(lit "stream", JSON.Bool true);
        (lit "model", JSON.String (lit "gpt"))].
Proof.
  intros b1 b2. split; [|split; [|reflexivity]].
  - apply (proj1 (proj2 (wire_body_keeps_properties b1))). reflexivity.
  - apply (proj1 (proj2 (proj2 (wire_body_keeps_properties b2)))).
    discriminate.
Defined.

(** ** The entry points *)



(** ** The waits *)

Lemma in_rounds p baseDelay d : forall n retryCount,
  is_post p = true ->
  In (Sleep d) (rounds p baseDelay retryCount n ++ [p]) ->
  exists k, (retryCount <= k)%nat /\ d = mul baseDelay (pow2 k).
Proof.
  induction n as [|n IH]; intros retryCount Hp; simpl.
  - intros [H|[]]. subst p. discriminate.
  - intros [H|[H|H]].
    + subst p. discriminate.
    + injection H as <-. exists retryCount. split; [lia | reflexivity].
    + destruct (IH (S retryCount) Hp H) as (k & Hk & E).
      exists k. split; [lia | exact E].
Qed.

Lemma in_effects o obs : is_yield o = false -> In o obs -> In o (effects obs).
Proof.
  intros H I. unfold effects. apply filter_In. split; [exact I|].
  rewrite H. reflexivity.
Qed.

Lemma or_default_number a d :
  d <> 0 -> exists b, or_default a d = num b /\ b <> 0.
Proof.
  intros Hd. destruct a as [|z|]; simpl; eauto.
  destruct z; eauto; eexists; split; try reflexivity; discriminate.
Qed.

(** X13. [OpenAIResponsesApiService] never waits [NaN] or [0] ms: every
    wait of [callApi] and of [streamApi] is [b * 2 ^ k] ms for the non-zero
    base delay [b] it reads (the configured one, or 1000 when that is unset
    or zero) and a retry count [k] not below the one the call started
    with. *)
Theorem responses_waits_are_nonzero_numbers
    (T : Type)
    (post : T -> string -> Body -> Outcome JSON.value * T)
    (JSON_parse : jsstring -> option JSON.value)
    (post_stream : T -> string -> Body -> Outcome Readable * T)
    (this : OpenAIResponsesApiService.t)
    (endpoint : string) (body : Body) (isRetry : bool) (retryCount : nat)
    (net : T) (d : JS.number) :
  In (Sleep d)
     (snd (OpenAIResponsesApiService.callApi this post endpoint body isRetry
             retryCount net))
  \/ In (Sleep d)
        (snd (OpenAIResponsesApiService.streamApi this JSON_parse post_stream
                endpoint body isRetry retryCount net)) ->
  exists b k,
    or_default (REQUEST_BASE_DELAY (OpenAIResponsesApiService.config this))
      1000 = num b
    /\ b <> 0 /\ (retryCount <= k)%nat
    /\ d = num (b * 2 ^ Z.of_nat k) /\ b * 2 ^ Z.of_nat k <> 0.
Proof.
  intros H.
  destruct (or_default_number
              (REQUEST_BASE_DELAY (OpenAIResponsesApiService.config this))
              1000 ltac:(discriminate)) as (b & Eb & Hb).
  assert (K : exists k, (retryCount <= k)%nat
                        /\ d = mul (OpenAIResponsesApiService.baseDelay this)
                                   (pow2 k)).
  { destruct H as [H|H].
    - destruct (responses_callApi_shape T post endpoint body isRetry this
                  retryCount net) as (n & _ & E).
      rewrite E in H. apply in_rounds in H; [exact H | reflexivity].
    - destruct (responses_streamApi_shape T JSON_parse post_stream endpoint
                  body isRetry this retryCount net) as (n & _ & E).
      apply (in_effects (Sleep d) _ eq_refl) in H. rewrite E in H.
      apply in_rounds in H; [exact H | reflexivity]. }
  destruct K as (k & Hk & E).
  unfold OpenAIResponsesApiService.baseDelay in E. rewrite Eb in E.
  exists b, k. repeat split; try assumption.
  assert (0 < 2 ^ Z.of_nat k) by (apply Z.pow_pos_nonneg; lia). nia.
Qed.

(** A configured base delay of 0: the one wait of the call is 1000 ms. *)
Lemma responses_waits_are_nonzero_numbers_witness :
  let cfg := mkConfig (Some "sk-test"%string) None None (num 2) (num 0) in
  let this := OpenAIResponsesApiService.mk cfg "sk-test"
                (Some "https://api.openai.com/v1"%string) false in
  let post := scripted (fun i => match i with
                                 | O => Reject (mkError (Some 500) "down")
                                 | S _ => Resolve JSON.Null
                                 end) in
  snd (OpenAIResponsesApiService.callApi this post "/responses" [] false 0
         0%nat)
  = [Post "/responses" []; Sleep (num 1000); Post "/responses" []]
  /\ exists b k, num 1000 = num (b * 2 ^ Z.of_nat k) /\ b <> 0.
Proof.
  intros cfg this post. split; [reflexivity|].
  destruct (responses_waits_are_nonzero_numbers nat post JSON.parse
              (scripted (fun _ => Reject (mkError None "unused"))) this
              "/responses" [] false 0 0%nat (num 1000)
              (or_introl (or_intror (or_introl eq_refl))))
    as (b & k & _ & Hb & _ & E & _).
  exists b, k. split; [exact E | exact Hb].
Defined.

(** X14. In [OpenAIApiService], when retries are configured but the base
    delay is left unset, every wait of [callApi] and of [streamApi] is
    [NaN]: the retries follow each other without a real pause. *)
Theorem core_waits_nan_without_base_delay
    (T : Type)
    (post : T -> string -> Body -> Outcome JSON.value * T)
    (JSON_parse : jsstring -> option JSON.value)
    (post_stream : T -> string -> Body -> Outcome Readable * T)
    (this : OpenAIApiService.t)
    (endpoint : string) (body : Body) (isRetry : bool) (retryCount : nat)
    (net : T) (d : JS.number) :
  REQUEST_BASE_DELAY (OpenAIApiService.config this) = undefined ->
  In (Sleep d)
     (snd (OpenAIApiService.callApi this post endpoint body isRetry
             retryCount net))
  \/ In (Sleep d)
        (snd (OpenAIApiService.streamApi this JSON_parse post_stream
                endpoint body isRetry retryCount net)) ->
  d = NaN.
Proof.
  intros Hb H.
  assert (K : exists k, (retryCount <= k)%nat
                        /\ d = mul (OpenAIApiService.baseDelay this) (pow2 k)).
  { destruct H as [H|H].
    - destruct (core_callApi_shape T post endpoint body isRetry this
                  retryCount net) as (n & _ & E).
      rewrite E in H. apply in_rounds in H; [exact H | reflexivity].
    - destruct (core_streamApi_shape T JSON_parse post_stream endpoint
                  body isRetry this retryCount net) as (n & _ & E).
      apply (in_effects (Sleep d) _ eq_refl) in H. rewrite E in H.
      apply in_rounds in H; [exact H | reflexivity]. }
  destruct K as (k & _ & E).
  unfold OpenAIApiService.baseDelay in E. rewrite Hb in E. exact E.
Qed.

(** Two retries configured, no base delay, one 429 before the success. *)
Lemma core_waits_nan_without_base_delay_witness :
  let cfg := mkConfig (Some "sk-test"%string) None None (num 2) undefined in
  let this := OpenAIApiService.mk cfg "sk-test" None false in
  let post := scripted (fun i => match i with
                                 | O => Reject (mkError (Some 429) "slow down")
                                 | S _ => Resolve JSON.Null
                                 end) in
  snd (OpenAIApiService.callApi this post "/chat/completions" [] false 0
         0%nat)
  = [Post "/chat/completions" []; Sleep NaN; Post "/chat/completions" []]
  /\ NaN = NaN.
Proof.
  intros cfg this post. split; [reflexivity|].
  symmetry.
  apply (core_waits_nan_without_base_delay nat post JSON.parse
           (scripted (fun _ => Reject (mkError None "unused"))) this
           "/chat/completions" [] false 0 0%nat NaN eq_refl
           (or_introl (or_intror (or_introl eq_refl)))).
Defined.

(** X15. When the response is a stream whose source raises no error,
    [streamApi] never retries and never throws, whatever bytes the stream
    carries: it sends its one request with the wire body, yields exactly
    the events of the decoding session over the decoded text, and returns.
    Both services yield the same events. *)
Theorem healthy_stream_single_request
    (T : Type) (JSON_parse : jsstring -> option JSON.value)
    (post_stream : T -> string -> Body -> Outcome Readable * T)
    (s1 : OpenAIApiService.t) (s2 : OpenAIResponsesApiService.t)
    (endpoint : string) (body : Body) (isRetry : bool) (retryCount : nat)
    (net net' : T) (cs : list (list byte)) :
  let wire := set_property (lit "stream") (JSON.Bool true) body in
  let evs :=
    fst (session JSON_parse (OpenAIApiService.final JSON_parse) None
           (snd (StringDecoder.write StringDecoder.init (concat cs)))
           (fst (StringDecoder.write StringDecoder.init (concat cs)))) in
  post_stream net endpoint wire = (Resolve (mkReadable cs None), net') ->
  OpenAIApiService.streamApi s1 JSON_parse post_stream endpoint body isRetry
    retryCount net
  = (Return tt, net', Post endpoint wire :: map Yield evs)
  /\ OpenAIResponsesApiService.streamApi s2 JSON_parse post_stream endpoint
       body isRetry retryCount net
     = (Return tt, net', Post endpoint wire :: map Yield evs).
Proof.
  intros wire evs Hp.
  rewrite core_streamApi_eq, responses_streamApi_eq. cbv zeta.
  change (OpenAIApiService.streamRequestBody body) with wire.
  change (OpenAIResponsesApiService.streamRequestBody body) with wire.
  rewrite Hp, try_block_same.
  unfold OpenAIApiService.try_block. rewrite read_stream_session.
  subst evs. unfold session.
  destruct (while_lines JSON_parse _) as [e [r|]]; auto.
Qed.

(** Garbage, a comment, one event and an unterminated event, with every
    retry setting in place: one request, two events, no wait. *)
Lemma healthy_stream_single_request_witness :
  let cfg := mkConfig (Some "sk-test"%string) None None (num 3) (num 100) in
  let s1 := OpenAIApiService.mk cfg "sk-test" None false in
  let cs := [[xff; xfe] ++ bytes "{oops" ++ [x0a] ++ bytes ": ping" ++ [x0a];
             bytes "data: 1" ++ [x0a] ++ bytes "data: 2"] in
  OpenAIApiService.streamApi s1 JSON.parse
    (scripted (fun _ => Resolve (mkReadable cs None))) "/v" [] false 0 0%nat
  = (Return tt, 1%nat,
     Post "/v" [(lit "stream", JSON.Bool true)]
       :: map Yield [JSON.Number 1 0; JSON.Number 2 0]).
Proof.
  intros cfg s1 cs.
  apply (proj1 (healthy_stream_single_request nat JSON.parse
                  (scripted (fun _ => Resolve (mkReadable cs None))) s1
                  (OpenAIResponsesApiService.mk cfg "sk-test" None false)
                  "/v" [] false 0 0%nat 1%nat cs eq_refl)).
Defined.
